(** * VersionedStorage: the versioned chunk store of [versionedzarrlib/data.py]

    A shallow embedding of class [VersionedData]: grid addressing
    ([_get_grid_dimensions]), identifier allocation ([_get_next_index]),
    the write-once raw chunk directory ([save_raw], [get_file]), the index
    array ([_update_index], [get_chunk], [block_exists],
    [fill_index_dataset]) and the life cycle ([create], [open]).

    Python integers are [Z].  Operations that raise are functions into
    [result]; operations that touch the store location thread the on-disk
    state explicitly and keep whatever was written before an exception. *)

From Stdlib Require Import ZArith Lia List Bool Sorted.
From stdpp Require Import base option list gmap.
From Stdlib Require String Ascii.

Local Open Scope Z_scope.

(** ** Exceptions *)

(** The exceptions that the modelled code paths can raise.
    [ZeroDivisionError], [OverflowError], [ValueError], [IndexError],
    [FileExistsError] and [FileNotFoundError] are Python's;
    [BoundsCheckError] (a subclass of [IndexError]), [ContainsArrayError] and
    [PathNotFoundError] are zarr's; [InvalidDataDaskFillError] is the
    package's own and carries the offending type. *)
Inductive PyType : Type :=
  | TyNoneType
  | TyDaskArray
  | TyNdarray
  | TyList
  | TyInt
  | TyStr.

Inductive Error : Type :=
  | ZeroDivisionError
  | OverflowError
  | ValueError
  | IndexError
  | BoundsCheckError
  | ContainsArrayError
  | PathNotFoundError
  | FileExistsError
  | FileNotFoundError
  | InvalidDataDaskFillError (t : PyType).

Inductive result (A : Type) : Type :=
  | Ok (a : A)
  | Raise (e : Error).

Arguments Ok {A} a.
Arguments Raise {A} e.

Definition is_Ok {A} (r : result A) : bool :=
  match r with Ok _ => true | Raise _ => false end.

(** [except IndexError] catches zarr's bounds error too. *)
Definition is_index_error (e : Error) : bool :=
  match e with
  | IndexError | BoundsCheckError => true
  | _ => false
  end.

(** ** Integer true division and [int()]

    [int(a / b)] on Python integers: [/] is true division, whose result is
    the binary64 float nearest to the exact quotient (ties to even), and
    [int] truncates that float toward zero.  A float is kept as
    [sign * mant * 2 ^ expo]. *)

Record float : Type := mkFloat { f_sign : Z; f_mant : Z; f_expo : Z }.

(** Is [x / y >= 2 ^ l]?  ([x], [y] positive, [l] of either sign.) *)
Definition quot_ge_pow2 (x y l : Z) : bool :=
  if 0 <=? l then y * 2 ^ l <=? x else y <=? x * 2 ^ (- l).

(** [floor (log2 (x / y))] for positive [x] and [y]. *)
Definition quot_log2 (x y : Z) : Z :=
  let l := Z.log2 x - Z.log2 y in
  if quot_ge_pow2 x y l then l else l - 1.

(** [num / den] rounded to the nearest integer, ties to the even one. *)
Definition round_half_even (num den : Z) : Z :=
  let m0 := num / den in
  match 2 * (num mod den) ?= den with
  | Lt => m0
  | Gt => m0 + 1
  | Eq => if Z.even m0 then m0 else m0 + 1
  end.

(** The 53-bit significand of [x / y] at exponent [e]. *)
Definition significand (x y e : Z) : Z :=
  if 0 <=? e then round_half_even x (y * 2 ^ e)
  else round_half_even (x * 2 ^ (- e)) y.

(** [a / b].  Quotients below the normal range lose precision in binary64,
    but stay below one half either way, which is all [int] sees of them. *)
Definition truediv (a b : Z) : result float :=
  if b =? 0 then Raise ZeroDivisionError
  else if a =? 0 then Ok (mkFloat 1 0 0)
  else
    let x := Z.abs a in
    let y := Z.abs b in
    let e := quot_log2 x y - 52 in
    let m := significand x y e in
    if (0 <=? e) && (2 ^ 1024 <=? m * 2 ^ e) then Raise OverflowError
    else Ok (mkFloat (Z.sgn a * Z.sgn b) m e).

(** [int(f)]: truncation toward zero. *)
Definition int_of_float (f : float) : Z :=
  f_sign f *
  (if 0 <=? f_expo f then f_mant f * 2 ^ f_expo f
   else f_mant f / 2 ^ (- f_expo f)).

(** ** Grid addressing *)

(** [_get_grid_dimensions(dimension, chunk_size)].  The loop runs over
    [range(len(dimension))]; a shorter [chunk_size] makes [chunk_size[i]]
    raise, a longer one is ignored past [len(dimension)].  [%] is Python's
    floored remainder, which is [Z.modulo]. *)
Fixpoint _get_grid_dimensions (dimension chunk_size : list Z) : result (list Z) :=
  match dimension with
  | [] => Ok []
  | d :: dimension' =>
      match chunk_size with
      | [] => Raise IndexError
      | c :: chunk_size' =>
          match truediv d c with
          | Raise e => Raise e
          | Ok q =>
              let val := int_of_float q in
              let val := if 0 <? d mod c then val + 1 else val in
              match _get_grid_dimensions dimension' chunk_size' with
              | Raise e => Raise e
              | Ok rest => Ok (val :: rest)
              end
          end
      end
  end.

(** Ceiling division, the reference the grid is specified against. *)
Definition ceil_div (a b : Z) : Z := - ((- a) / b).

Fixpoint ceil_divs (dimension chunk_size : list Z) : list Z :=
  match dimension, chunk_size with
  | d :: dimension', c :: chunk_size' =>
      ceil_div d c :: ceil_divs dimension' chunk_size'
  | _, _ => []
  end.

(** ** Data model *)

(** numpy element types. *)
Inductive DType : Type :=
  | int8 | int16 | int32 | int64
  | uint8 | uint16 | uint32 | uint64
  | float32 | float64.

(** An n-dimensional array value: element type, shape, elements in row-major
    order. *)
Record Block : Type := mkBlock {
  b_dtype : DType;
  b_shape : list Z;
  b_data : list Z
}.

Definition size_of_shape (shape : list Z) : Z := fold_right Z.mul 1 shape.

(** [np.zeros(shape, dtype=dtype)]. *)
Definition np_zeros (shape : list Z) (dtype : DType) : Block :=
  mkBlock dtype shape (repeat 0 (Z.to_nat (size_of_shape shape))).

(** The persisted metadata record: [shape], [chunks], [dtype] and the chunk
    counter [total_chunks]. *)
Record Metadata : Type := mkMetadata {
  md_shape : list Z;
  md_chunks : list Z;
  md_dtype : DType;
  total_chunks : Z
}.

Definition with_total_chunks (md : Metadata) (n : Z) : Metadata :=
  mkMetadata (md_shape md) (md_chunks md) (md_dtype md) n.

(** The index array on disk: its shape and its cells, keyed by grid
    coordinate.  Its element type is [index_d_type = np.uint64] and its fill
    value is zarr's default 0, which is what an absent key reads as. *)
Record IndexArray : Type := mkIndexArray {
  z_shape : list Z;
  z_cells : gmap (list Z) Z
}.

(** The store location once created: metadata, the [indexes] array and the
    [raw/] directory, one array per chunk, named by the decimal identifier. *)
Record Store : Type := mkStore {
  metadata : Metadata;
  indexes : IndexArray;
  raw : gmap Z Block
}.

(** The location on disk: absent, or a created store. *)
Definition Disk : Type := option Store.

(** The fields of a [VersionedData] object that the modelled methods read.
    [index_d_type] stays at its default [np.uint64], which is also what
    [open] constructs; compressors, filters and the version-control handle
    do not reach the modelled paths. *)
Record VersionedData : Type := mkVersionedData {
  shape : list Z;
  raw_chunk_size : list Z;
  d_type : DType;
  _index_matrix_dimension : list Z
}.

Definition DEFAULT_RAW_CHUNK_SIZE : Z := 128.

(** [VersionedData.__init__]: [raw_chunk_size=None] selects the default in
    every axis, and the grid is computed at construction. *)
Definition __init__ (shape : list Z) (raw_chunk_size : option (list Z))
    (d_type : DType) : result VersionedData :=
  let chunks :=
    match raw_chunk_size with
    | Some c => c
    | None => repeat DEFAULT_RAW_CHUNK_SIZE (length shape)
    end in
  match _get_grid_dimensions shape chunks with
  | Raise e => Raise e
  | Ok grid => Ok (mkVersionedData shape chunks d_type grid)
  end.

(** ** Methods as state transformers

    A method runs on the created store and returns its value, or the
    exception it raised, together with the store as it left it. *)
Definition M (A : Type) : Type := Store -> result A * Store.

Definition ret {A} (a : A) : M A := fun st => (Ok a, st).
Definition raise {A} (e : Error) : M A := fun st => (Raise e, st).
Definition bind {A B} (m : M A) (k : A -> M B) : M B :=
  fun st =>
    match m st with
    | (Ok a, st') => k a st'
    | (Raise e, st') => (Raise e, st')
    end.
Definition lift {A} (r : result A) : M A := fun st => (r, st).

Notation "x <- m ;; k" := (bind m (fun x => k))
  (at level 100, m at next level, right associativity).
Notation "m ;;; k" := (bind m (fun _ => k))
  (at level 100, right associativity).

Definition set_metadata (md : Metadata) : M unit :=
  fun st => (Ok tt, mkStore md (indexes st) (raw st)).
Definition set_indexes (z : IndexArray) : M unit :=
  fun st => (Ok tt, mkStore (metadata st) z (raw st)).
Definition set_raw (r : gmap Z Block) : M unit :=
  fun st => (Ok tt, mkStore (metadata st) (indexes st) r).
Definition get_metadata : M Metadata := fun st => (Ok (metadata st), st).
Definition get_indexes : M IndexArray := fun st => (Ok (indexes st), st).
Definition get_raw : M (gmap Z Block) := fun st => (Ok (raw st), st).

(** ** Indexing the index array *)

(** Every coordinate tuple of an array of the given shape, in row-major
    order. *)
Fixpoint grid_cells (shape : list Z) : list (list Z) :=
  match shape with
  | [] => [[]]
  | d :: shape' =>
      flat_map (fun i => map (cons i) (grid_cells shape')) (seqZ 0 d)
  end.

(** One integer of a selection against one axis: a negative index counts
    from the end, and what is still outside raises. *)
Definition normalize_integer_selection (dim_sel dim_len : Z) : result Z :=
  let dim_sel := if dim_sel <? 0 then dim_len + dim_sel else dim_sel in
  if (dim_len <=? dim_sel) || (dim_sel <? 0) then Raise BoundsCheckError
  else Ok dim_sel.

Fixpoint normalize_axes (sel z_shape : list Z) : result (list Z) :=
  match sel, z_shape with
  | [], _ => Ok []
  | _ :: _, [] => Raise IndexError
  | i :: sel', d :: shape' =>
      match normalize_integer_selection i d with
      | Raise e => Raise e
      | Ok i' =>
          match normalize_axes sel' shape' with
          | Raise e => Raise e
          | Ok r => Ok (i' :: r)
          end
      end
  end.

(** A tuple of integers as a selection: too many indices is an
    [IndexError]; fewer than the rank selects the whole of the remaining
    axes. *)
Definition normalize_selection (sel z_shape : list Z) : result (list Z) :=
  if (length z_shape <? length sel)%nat then Raise IndexError
  else normalize_axes sel z_shape.

Definition cell (z : IndexArray) (pos : list Z) : Z :=
  default 0 (z_cells z !! pos).

(** What [z[selection]] evaluates to: a scalar for a full-rank selection,
    otherwise the sub-array of the remaining axes (its elements in
    row-major order). *)
Inductive IndexValue : Type :=
  | Scalar (v : Z)
  | SubArray (vs : list Z).

(** [z[selection]]. *)
Definition getitem (z : IndexArray) (sel : list Z) : result IndexValue :=
  match normalize_selection sel (z_shape z) with
  | Raise e => Raise e
  | Ok q =>
      if (length q =? length (z_shape z))%nat then Ok (Scalar (cell z q))
      else
        Ok (SubArray (map (fun c => cell z (q ++ c))
                          (grid_cells (drop (length q) (z_shape z)))))
  end.

(** An integer stored into a [uint64] cell must be in range. *)
Definition to_uint64 (v : Z) : result Z :=
  if (0 <=? v) && (v <? 2 ^ 64) then Ok v else Raise OverflowError.

(** [z[selection] = value] for an integer [value]: the selection is resolved
    first, then every selected cell receives the value. *)
Definition setitem (z : IndexArray) (sel : list Z) (value : Z)
    : result IndexArray :=
  match normalize_selection sel (z_shape z) with
  | Raise e => Raise e
  | Ok q =>
      match to_uint64 value with
      | Raise e => Raise e
      | Ok v =>
          Ok (mkIndexArray (z_shape z)
                (fold_right (fun c m => <[q ++ c := v]> m) (z_cells z)
                   (grid_cells (drop (length q) (z_shape z)))))
      end
  end.

(** The truth value of [x > 0] in an [if]: an array of one element stands
    for that element; numpy refuses the truth value of an array of any
    other size, the empty one included. *)
Definition truth_gt_0 (x : IndexValue) : result bool :=
  match x with
  | Scalar v => Ok (0 <? v)
  | SubArray [v] => Ok (0 <? v)
  | SubArray _ => Raise ValueError
  end.

(** ** Metadata *)

(** Modelled from the spec: [Metadata.next_chunk(path)] of [metadata.py],
    the identifier allocator.  The counter is read from the persisted
    metadata, incremented, written back and returned within the call; a
    created store starts at 0, so the first identifier is 1. *)
Definition next_chunk : M Z :=
  md <- get_metadata ;;
  let n := total_chunks md + 1 in
  set_metadata (with_total_chunks md n) ;;;
  ret n.

(** Modelled from the spec: [Metadata.read_metadata(path)] of [metadata.py]
    returns the persisted record. *)
Definition read_metadata : M Metadata := get_metadata.

(** Modelled from the spec: what [Metadata(shape, chunks, dtype)] followed
    by [create_like] persists for a new store; the counter starts at 0. *)
Definition create_like (shape chunks : list Z) (dtype : DType) : Metadata :=
  mkMetadata shape chunks dtype 0.

(** ** The raw chunk directory *)

(** [zarr.open(new_file, shape=.., chunks=.., mode='w-', dtype=..)]: create,
    fail if the path holds an array already.  The new array reads as
    zeros. *)
Definition open_create_exclusive (name : Z) (shape : list Z) (dtype : DType)
    : M unit :=
  r <- get_raw ;;
  match r !! name with
  | Some _ => raise ContainsArrayError
  | None => set_raw (<[name := np_zeros shape dtype]> r)
  end.

(** [z[:] = data] on the array just opened: the value must have the shape of
    the selection, and is stored with the array's element type. *)
Definition assign_all (name : Z) (data : Block) : M unit :=
  r <- get_raw ;;
  match r !! name with
  | None => raise PathNotFoundError
  | Some z =>
      if decide (b_shape data = b_shape z)
      then set_raw (<[name := mkBlock (b_dtype z) (b_shape z) (b_data data)]> r)
      else raise ValueError
  end.

Definition _get_next_index (self : VersionedData) : M Z := next_chunk.

Definition save_raw (self : VersionedData) (data : Block) (index : Z) : M unit :=
  open_create_exclusive index (raw_chunk_size self) (b_dtype data) ;;;
  assign_all index data.

Definition _update_index (self : VersionedData) (index : Z) (position : list Z)
    : M unit :=
  z <- get_indexes ;;
  z' <- lift (setitem z position index) ;;
  set_indexes z'.

Definition write_block (self : VersionedData) (data : Block)
    (grid_position : list Z) : M unit :=
  new_chunk_index <- _get_next_index self ;;
  save_raw self data new_chunk_index ;;;
  _update_index self new_chunk_index grid_position.

(** [get_file(file_id)] opens [raw/<file_id>] read-only.  Chunk names are
    decimal integers, so the text of an array names none of them. *)
Definition get_file (self : VersionedData) (file_id : IndexValue) : M Block :=
  r <- get_raw ;;
  match file_id with
  | Scalar v =>
      match r !! v with
      | Some z => ret z
      | None => raise PathNotFoundError
      end
  | SubArray _ => raise PathNotFoundError
  end.

Definition get_chunk (self : VersionedData) (grid_position : list Z) : M Block :=
  z <- get_indexes ;;
  file_id <- lift (getitem z grid_position) ;;
  positive <- lift (truth_gt_0 file_id) ;;
  if (positive : bool) then get_file self file_id
  else ret (np_zeros (raw_chunk_size self) uint64).

Definition block_exists (self : VersionedData) (grid_position : list Z) : M Z :=
  z <- get_indexes ;;
  v <- lift (getitem z grid_position) ;;
  positive <- lift (truth_gt_0 v) ;;
  if (positive : bool) then ret 1 else ret 0.

Definition get_total_chunks (self : VersionedData) : M Z :=
  md <- read_metadata ;;
  ret (total_chunks md).

(** ** Bulk fill *)

Record DaskArray : Type := mkDaskArray {
  da_shape : list Z;
  da_cells : gmap (list Z) Z
}.

(** The values [fill_index_dataset] may be handed. *)
Inductive PyObject : Type :=
  | PyNone
  | PyDask (a : DaskArray)
  | PyNdarray (b : Block)
  | PyList (l : list Z)
  | PyInt (n : Z)
  | PyStr.

Definition type_of (data : PyObject) : PyType :=
  match data with
  | PyNone => TyNoneType
  | PyDask _ => TyDaskArray
  | PyNdarray _ => TyNdarray
  | PyList _ => TyList
  | PyInt _ => TyInt
  | PyStr => TyStr
  end.

Definition is_not_None (data : PyObject) : bool :=
  match data with PyNone => false | _ => true end.

(** [isinstance(data, da.Array)], with the array when it holds. *)
Definition as_dask_array (data : PyObject) : option DaskArray :=
  match data with PyDask a => Some a | _ => None end.

Section BulkFill.

(** [da.store(data, dest)] belongs to dask: it returns the index array as
    it leaves it, whether it completed or raised. *)
Variable da_store : DaskArray -> IndexArray -> result unit * IndexArray.

Definition fill_index_dataset (self : VersionedData) (data : PyObject)
    : M unit :=
  if is_not_None data then
    match as_dask_array data with
    | Some a =>
        dest <- get_indexes ;;
        let '(r, dest') := da_store a dest in
        set_indexes dest' ;;;
        lift r
    | None => raise (InvalidDataDaskFillError (type_of data))
    end
  else ret tt.

End BulkFill.

(** A [da.store] that copies an array of the index's shape cell by cell,
    cast to [uint64], and refuses any other shape. *)
Definition da_store_same_shape (a : DaskArray) (dest : IndexArray)
    : result unit * IndexArray :=
  if decide (da_shape a = z_shape dest)
  then (Ok tt, mkIndexArray (z_shape dest) ((fun v => v mod 2 ^ 64) <$> da_cells a))
  else (Raise ValueError, dest).

(** ** Life cycle *)

(** What [_create_new_dataset] leaves in the new directory: the metadata,
    an index array of the grid's shape with no cell written, and an empty
    [raw/]. *)
Definition new_dataset (self : VersionedData) : Store :=
  mkStore (create_like (shape self) (raw_chunk_size self) (d_type self))
          (mkIndexArray (_index_matrix_dimension self) ∅)
          ∅.

(** [os.mkdir(self.path)], [os.mkdir(self._raw_path)] and
    [_create_new_dataset()]: [mkdir] refuses an existing path. *)
Definition mkdir_and_create_new_dataset (self : VersionedData) (d : Disk)
    : result unit * Disk :=
  match d with
  | Some _ => (Raise FileExistsError, d)
  | None => (Ok tt, Some (new_dataset self))
  end.

(** [shutil.rmtree(self.path)] on a store that the process may remove.
    The [except OSError] branch of [create], taken when the removal fails,
    and a path that exists without holding a store are outside this model
    of the location. *)
Definition rmtree (d : Disk) : Disk := None.

(** [create(overwrite)]. *)
Definition create (self : VersionedData) (overwrite : bool) (d : Disk)
    : result unit * Disk :=
  match d with
  | Some _ =>
      if overwrite then mkdir_and_create_new_dataset self (rmtree d)
      else (Ok tt, d)
  | None => mkdir_and_create_new_dataset self d
  end.

(** [VersionedData.open(path)]: a new object from the persisted metadata.
    Nothing on disk changes; without metadata there is nothing to read. *)
Definition open (d : Disk) : result VersionedData :=
  match d with
  | None => Raise FileNotFoundError
  | Some st =>
      let md := metadata st in
      __init__ (md_shape md) (Some (md_chunks md)) (md_dtype md)
  end.

(** ** Reading the whole index, and chunk keys *)



(** [s.__contains__(c)] for a one-character [c]. *)
Fixpoint str_contains (s : String.string) (c : Ascii.ascii) : bool :=
  match s with
  | String.EmptyString => false
  | String.String a s' => Ascii.eqb a c || str_contains s' c
  end.

Definition slash : Ascii.ascii := Ascii.ascii_of_nat 47.

(** [_is_chunk_key(key)], on the text [str(key)] of the key. *)
Definition _is_chunk_key (key : String.string) : bool :=
  str_contains key slash.

(** The class attribute [_raw_dir = "raw/"]. *)
Definition _raw_dir : String.string :=
  String.String (Ascii.ascii_of_nat 114)
    (String.String (Ascii.ascii_of_nat 97)
       (String.String (Ascii.ascii_of_nat 119)
          (String.String slash String.EmptyString))).

(** * Specification vocabulary *)

(** A grid position: one coordinate per axis, each within the axis. *)
Definition in_bounds (pos dims : list Z) : Prop :=
  Forall2 (fun i d => 0 <= i < d) pos dims.

(** Some coordinate is at or past the end of its axis. *)
Definition past_the_end (pos dims : list Z) : Prop :=
  exists (i : nat) (x d : Z), pos !! i = Some x /\ dims !! i = Some d /\ d <= x.

(** The store invariant: what [create] establishes and [write_block] keeps.
    The index array has the grid's shape, and every chunk in [raw/] is named
    by an identifier that the allocator has already handed out. *)
Record store_ok (self : VersionedData) (st : Store) : Prop := mk_store_ok {
  ok_grid : z_shape (indexes st) = _index_matrix_dimension self;
  ok_counter : 0 <= total_chunks (metadata st);
  ok_raw : forall id, is_Some (raw st !! id) ->
                      0 < id <= total_chunks (metadata st)
}.

(** The store after [_get_next_index]. *)
Definition allocated (st : Store) : Store :=
  mkStore (with_total_chunks (metadata st) (total_chunks (metadata st) + 1))
          (indexes st) (raw st).

(** The store after [_get_next_index] and [save_raw] of a chunk-shaped
    block. *)
Definition saved (st : Store) (data : Block) : Store :=
  let id := total_chunks (metadata st) + 1 in
  mkStore (with_total_chunks (metadata st) id) (indexes st)
          (<[id := data]> (raw st)).

(** The store after a write of a chunk-shaped block at a grid position. *)
Definition written (st : Store) (data : Block) (pos : list Z) : Store :=
  let id := total_chunks (metadata st) + 1 in
  mkStore (with_total_chunks (metadata st) id)
          (mkIndexArray (z_shape (indexes st))
                        (<[pos := id]> (z_cells (indexes st))))
          (<[id := data]> (raw st)).

(** A method call that raises an [IndexError] and leaves the store as it
    found it. *)
Definition rejected_unchanged {A} (m : M A) (st : Store) : Prop :=
  exists e, is_index_error e = true /\ m st = (Raise e, st).

Fixpoint is_prefix (q pos : list Z) : bool :=
  match q, pos with
  | [], _ => true
  | _ :: _, [] => false
  | x :: q', y :: pos' => (x =? y) && is_prefix q' pos'
  end.

(** Does an assignment through selection [sel] write the cell [pos] of an
    array of shape [dims]? *)
Definition selects (sel dims pos : list Z) : bool :=
  match normalize_selection sel dims with
  | Ok q => is_prefix q pos
  | Raise _ => false
  end.

(** A sequence of [write_block] calls, whatever each one's outcome. *)
Fixpoint run_writes (self : VersionedData) (ws : list (Block * list Z))
    (st : Store) : Store :=
  match ws with
  | [] => st
  | (data, pos) :: ws' => run_writes self ws' (snd (write_block self data pos st))
  end.

(** A session on one store location: [write_block] calls, and restarts of
    the process, after which the object is rebuilt by [open] from what is
    on disk. *)
Inductive Call : Type :=
  | CallWrite (data : Block) (grid_position : list Z)
  | Restart.

(** The identifiers that [_get_next_index] hands to the [write_block] calls
    of a session, in order.  A session whose [open] raises ends there. *)
Fixpoint allocations (self : VersionedData) (calls : list Call) (st : Store)
    : list Z :=
  match calls with
  | [] => []
  | CallWrite data pos :: calls' =>
      let st' := snd (write_block self data pos st) in
      match fst (_get_next_index self st) with
      | Ok id => id :: allocations self calls' st'
      | Raise _ => allocations self calls' st'
      end
  | Restart :: calls' =>
      match open (Some st) with
      | Ok self' => allocations self' calls' st
      | Raise _ => []
      end
  end.

(** A small store used in the examples: a 4 x 4 array of [int8] in 2 x 2
    chunks, so a 2 x 2 grid. *)
Definition ex_self : VersionedData := mkVersionedData [4; 4] [2; 2] int8 [2; 2].
Definition ex_block1 : Block := mkBlock int8 [2; 2] [1; 2; 3; 4].
Definition ex_block2 : Block := mkBlock int8 [2; 2] [5; 6; 7; 8].

(** Every index entry is 0 or an identifier that has been allocated and
    names a chunk in [raw/]. *)
Definition index_ok (st : Store) : Prop :=
  forall pos,
    cell (indexes st) pos = 0 \/
    (0 < cell (indexes st) pos <= total_chunks (metadata st) /\
     is_Some (raw st !! cell (indexes st) pos)).


(** An index with one entry that names no chunk. *)
Definition ex_dangling : Store :=
  mkStore (create_like [4; 4] [2; 2] int8)
          (mkIndexArray [2; 2] {[ [0; 1] := 7 ]})
          ∅.

Ltac run_M :=
  unfold bind, ret, raise, lift, get_metadata, get_indexes, get_raw,
    set_metadata, set_indexes, set_raw; simpl.

(** * Properties *)

(** ** Selections *)

Lemma normalize_integer_in_range i d :
  0 <= i < d -> normalize_integer_selection i d = Ok i.
Proof.
  intros [Hlo Hhi]. unfold normalize_integer_selection. cbv zeta.
  destruct (Z.ltb_spec i 0) as [Hneg|_]; [lia|].
  destruct (Z.leb_spec d i) as [Hge|_]; [lia|].
  destruct (Z.ltb_spec i 0) as [Hneg|_]; [lia|].
  reflexivity.
Qed.

Lemma normalize_integer_past_the_end x d :
  d <= x -> normalize_integer_selection x d = Raise BoundsCheckError.
Proof.
  intros Hge. unfold normalize_integer_selection. cbv zeta.
  destruct (Z.ltb_spec x 0) as [Hneg|Hpos].
  - destruct (Z.leb_spec d (d + x)); [reflexivity|].
    destruct (Z.ltb_spec (d + x) 0); [reflexivity | lia].
  - destruct (Z.leb_spec d x); [reflexivity | lia].
Qed.

Lemma normalize_axes_in_bounds pos dims :
  in_bounds pos dims -> normalize_axes pos dims = Ok pos.
Proof.
  induction 1 as [|i d pos dims Hi _ IH]; simpl; [reflexivity|].
  rewrite (normalize_integer_in_range _ _ Hi), IH. reflexivity.
Qed.

Lemma normalize_selection_in_bounds pos dims :
  in_bounds pos dims -> normalize_selection pos dims = Ok pos.
Proof.
  intros Hb. unfold normalize_selection.
  rewrite (Forall2_length _ _ _ Hb), Nat.ltb_irrefl.
  now apply normalize_axes_in_bounds.
Qed.

Lemma normalize_axes_length sel dims q :
  normalize_axes sel dims = Ok q -> length q = length sel.
Proof.
  revert dims q. induction sel as [|i sel IH]; intros dims q; simpl.
  - intros [= <-]. reflexivity.
  - destruct dims as [|d dims]; [discriminate|].
    destruct (normalize_integer_selection i d); [|discriminate].
    destruct (normalize_axes sel dims) as [r|] eqn:Hr; [|discriminate].
    intros [= <-]. simpl. f_equal. eauto.
Qed.

Lemma normalize_axes_past_the_end pos dims :
  past_the_end pos dims ->
  exists e, normalize_axes pos dims = Raise e /\ is_index_error e = true.
Proof.
  intros (i & x & d & Hp & Hd & Hge).
  revert pos dims Hp Hd. induction i as [|i IH]; intros pos dims Hp Hd.
  - destruct pos as [|x' pos]; [discriminate|].
    destruct dims as [|d' dims]; [discriminate|].
    simpl in Hp, Hd. injection Hp as ->. injection Hd as ->. simpl.
    rewrite (normalize_integer_past_the_end _ _ Hge). eauto.
  - destruct pos as [|x' pos]; [discriminate|].
    destruct dims as [|d' dims]; [discriminate|].
    simpl in Hp, Hd. simpl.
    destruct (normalize_integer_selection x' d') as [v|e] eqn:Hv.
    + destruct (IH pos dims Hp Hd) as (e & -> & He). eauto.
    + exists e. split; [reflexivity|].
      unfold normalize_integer_selection in Hv.
      destruct (_ || _) in Hv; [|discriminate].
      injection Hv as <-. reflexivity.
Qed.

Lemma normalize_selection_past_the_end pos dims :
  past_the_end pos dims ->
  exists e, normalize_selection pos dims = Raise e /\ is_index_error e = true.
Proof.
  intros H. unfold normalize_selection.
  destruct (_ <? _)%nat; [eauto|].
  now apply normalize_axes_past_the_end.
Qed.

Lemma normalize_selection_past_the_end_rank pos dims :
  past_the_end pos dims -> length pos = length dims ->
  normalize_selection pos dims = Raise BoundsCheckError.
Proof.
  intros (i & x & d & Hp & Hd & Hge) Hlen. unfold normalize_selection.
  rewrite Hlen, Nat.ltb_irrefl. clear Hlen.
  revert pos dims Hp Hd. induction i as [|i IH]; intros pos dims Hp Hd;
    (destruct pos as [|x' pos]; [discriminate|]);
    (destruct dims as [|d' dims]; [discriminate|]); simpl in Hp, Hd; simpl.
  - injection Hp as ->. injection Hd as ->.
    now rewrite (normalize_integer_past_the_end _ _ Hge).
  - destruct (normalize_integer_selection x' d') as [v|e] eqn:Hv.
    + now rewrite (IH pos dims Hp Hd).
    + unfold normalize_integer_selection in Hv.
      destruct (_ || _) in Hv; [|discriminate].
      now injection Hv as <-.
Qed.

Lemma getitem_in_bounds z pos :
  in_bounds pos (z_shape z) -> getitem z pos = Ok (Scalar (cell z pos)).
Proof.
  intros Hb. unfold getitem.
  rewrite (normalize_selection_in_bounds _ _ Hb).
  now rewrite (Forall2_length _ _ _ Hb), Nat.eqb_refl.
Qed.

Lemma setitem_in_bounds z pos v :
  in_bounds pos (z_shape z) -> 0 <= v < 2 ^ 64 ->
  setitem z pos v = Ok (mkIndexArray (z_shape z) (<[pos := v]> (z_cells z))).
Proof.
  intros Hb [Hlo Hhi]. unfold setitem, to_uint64.
  rewrite (normalize_selection_in_bounds _ _ Hb).
  destruct (Z.leb_spec 0 v); [|lia].
  destruct (Z.ltb_spec v (2 ^ 64)); [|lia]. simpl.
  rewrite (Forall2_length _ _ _ Hb), drop_all. simpl.
  now rewrite app_nil_r.
Qed.

Lemma getitem_past_the_end z pos :
  past_the_end pos (z_shape z) ->
  exists e, getitem z pos = Raise e /\ is_index_error e = true.
Proof.
  intros H. unfold getitem.
  destruct (normalize_selection_past_the_end _ _ H) as (e & -> & He). eauto.
Qed.

Lemma setitem_past_the_end z pos v :
  past_the_end pos (z_shape z) ->
  exists e, setitem z pos v = Raise e /\ is_index_error e = true.
Proof.
  intros H. unfold setitem.
  destruct (normalize_selection_past_the_end _ _ H) as (e & -> & He). eauto.
Qed.

(** ** The methods, step by step *)

Lemma _get_next_index_spec self st :
  _get_next_index self st = (Ok (total_chunks (metadata st) + 1), allocated st).
Proof. reflexivity. Qed.

Lemma write_block_steps self data pos st :
  write_block self data pos st =
    match save_raw self data (total_chunks (metadata st) + 1) (allocated st) with
    | (Ok _, st2) => _update_index self (total_chunks (metadata st) + 1) pos st2
    | (Raise e, st2) => (Raise e, st2)
    end.
Proof. reflexivity. Qed.

Lemma save_raw_fresh self data index st :
  raw st !! index = None ->
  b_shape data = raw_chunk_size self ->
  save_raw self data index st =
    (Ok tt, mkStore (metadata st) (indexes st) (<[index := data]> (raw st))).
Proof.
  intros Hfresh Hshape.
  unfold save_raw, open_create_exclusive, assign_all. run_M.
  rewrite Hfresh. simpl. rewrite lookup_insert_eq. simpl.
  destruct (decide (b_shape data = raw_chunk_size self)) as [_|Hne];
    [|contradiction].
  rewrite insert_insert_eq. destruct data as [dt sh el]. simpl in *.
  now subst sh.
Qed.

Lemma save_raw_metadata self data index st :
  metadata (snd (save_raw self data index st)) = metadata st.
Proof.
  unfold save_raw, open_create_exclusive, assign_all. run_M.
  destruct (raw st !! index); simpl; [reflexivity|].
  rewrite lookup_insert_eq. simpl.
  now destruct (decide _).
Qed.

Lemma save_raw_indexes self data index st :
  indexes (snd (save_raw self data index st)) = indexes st.
Proof.
  unfold save_raw, open_create_exclusive, assign_all. run_M.
  destruct (raw st !! index); simpl; [reflexivity|].
  rewrite lookup_insert_eq. simpl.
  now destruct (decide _).
Qed.

Lemma _update_index_in_bounds self index position st :
  in_bounds position (z_shape (indexes st)) ->
  0 <= index < 2 ^ 64 ->
  _update_index self index position st =
    (Ok tt,
     mkStore (metadata st)
       (mkIndexArray (z_shape (indexes st))
                     (<[position := index]> (z_cells (indexes st))))
       (raw st)).
Proof.
  intros Hb Hv. unfold _update_index. run_M.
  now rewrite (setitem_in_bounds _ _ _ Hb Hv).
Qed.

Lemma _update_index_frame self index position st :
  metadata (snd (_update_index self index position st)) = metadata st /\
  raw (snd (_update_index self index position st)) = raw st /\
  z_shape (indexes (snd (_update_index self index position st))) =
    z_shape (indexes st).
Proof.
  unfold _update_index. run_M.
  destruct (setitem (indexes st) position index) as [z'|e] eqn:Hset;
    simpl; [|auto].
  repeat split. unfold setitem in Hset.
  destruct (normalize_selection _ _); [|discriminate].
  destruct (to_uint64 index); [|discriminate].
  now injection Hset as <-.
Qed.

Lemma get_chunk_stored self position st v data :
  in_bounds position (z_shape (indexes st)) ->
  cell (indexes st) position = v -> 0 < v ->
  raw st !! v = Some data ->
  get_chunk self position st = (Ok data, st).
Proof.
  intros Hb Hcell Hpos Hraw. unfold get_chunk, get_file. run_M.
  rewrite (getitem_in_bounds _ _ Hb), Hcell. simpl.
  destruct (Z.ltb_spec 0 v); [|lia]. simpl.
  now rewrite Hraw.
Qed.

Lemma get_chunk_empty self position st :
  in_bounds position (z_shape (indexes st)) ->
  cell (indexes st) position = 0 ->
  get_chunk self position st = (Ok (np_zeros (raw_chunk_size self) uint64), st).
Proof.
  intros Hb Hcell. unfold get_chunk. run_M.
  now rewrite (getitem_in_bounds _ _ Hb), Hcell.
Qed.

Lemma block_exists_cell self position st :
  in_bounds position (z_shape (indexes st)) ->
  block_exists self position st =
    (Ok (if 0 <? cell (indexes st) position then 1 else 0), st).
Proof.
  intros Hb. unfold block_exists. run_M.
  rewrite (getitem_in_bounds _ _ Hb). simpl.
  now destruct (0 <? _).
Qed.

Lemma store_ok_next_fresh self st :
  store_ok self st -> raw st !! (total_chunks (metadata st) + 1) = None.
Proof.
  intros Hok. destruct (raw st !! _) eqn:Hl; [|reflexivity].
  assert (Hs : is_Some (raw st !! (total_chunks (metadata st) + 1)))
    by (rewrite Hl; eauto).
  apply (ok_raw _ _ Hok) in Hs. lia.
Qed.

Lemma new_dataset_ok self : store_ok self (new_dataset self).
Proof.
  split; simpl; [reflexivity | lia |].
  intros id [b Hb]. now rewrite lookup_empty in Hb.
Qed.

Lemma write_block_in_bounds self st data pos :
  store_ok self st ->
  in_bounds pos (_index_matrix_dimension self) ->
  b_shape data = raw_chunk_size self ->
  total_chunks (metadata st) + 1 < 2 ^ 64 ->
  write_block self data pos st = (Ok tt, written st data pos).
Proof.
  intros Hok Hb Hshape Hfit. rewrite write_block_steps, save_raw_fresh;
    [|apply (store_ok_next_fresh _ _ Hok) | assumption].
  rewrite _update_index_in_bounds; simpl.
  - reflexivity.
  - now rewrite (ok_grid _ _ Hok).
  - pose proof (ok_counter _ _ Hok). lia.
Qed.

Lemma written_ok self st data pos :
  store_ok self st -> store_ok self (written st data pos).
Proof.
  intros [Hg Hc Hr]. split; simpl; [assumption | lia |].
  intros id [b Hb].
  destruct (decide (total_chunks (metadata st) + 1 = id)) as [<-|Hne].
  - lia.
  - rewrite lookup_insert_ne in Hb by assumption.
    assert (Hs : is_Some (raw st !! id)) by eauto.
    apply Hr in Hs. lia.
Qed.

Lemma write_block_total_chunks self data pos st :
  total_chunks (metadata (snd (write_block self data pos st))) =
    total_chunks (metadata st) + 1.
Proof.
  rewrite write_block_steps.
  pose proof (save_raw_metadata self data (total_chunks (metadata st) + 1)
                (allocated st)) as Hm.
  destruct (save_raw self data _ (allocated st)) as [[[]|e] st2]; simpl in *.
  - destruct (_update_index_frame self (total_chunks (metadata st) + 1) pos st2)
      as (-> & _ & _).
    now rewrite Hm.
  - now rewrite Hm.
Qed.

Lemma write_block_other_shape self data pos st :
  z_shape (indexes (snd (write_block self data pos st))) =
    z_shape (indexes st).
Proof.
  rewrite write_block_steps.
  pose proof (save_raw_indexes self data (total_chunks (metadata st) + 1)
                (allocated st)) as Hi.
  destruct (save_raw self data _ (allocated st)) as [[[]|e] st2];
    simpl in Hi; [|simpl; now rewrite Hi].
  destruct (_update_index_frame self (total_chunks (metadata st) + 1) pos st2)
    as (_ & _ & ->).
  now rewrite Hi.
Qed.

Lemma save_raw_names self data index st id :
  is_Some (raw (snd (save_raw self data index st)) !! id) ->
  id = index \/ is_Some (raw st !! id).
Proof.
  unfold save_raw, open_create_exclusive, assign_all. run_M.
  destruct (raw st !! index) eqn:Hex; simpl; [auto|].
  rewrite lookup_insert_eq. simpl.
  destruct (decide _); simpl; intros Hs;
    (destruct (decide (index = id)) as [->|Hne]; [auto|]);
    repeat rewrite lookup_insert_ne in Hs by assumption; auto.
Qed.

(** [write_block] keeps the invariant, whether it returns or raises. *)
Lemma write_block_ok self data pos st :
  store_ok self st -> store_ok self (snd (write_block self data pos st)).
Proof.
  intros [Hg Hc Hr]. split.
  - destruct (write_block_other_shape self data pos st). congruence.
  - rewrite write_block_total_chunks. lia.
  - intros id Hs. rewrite write_block_total_chunks.
    rewrite write_block_steps in Hs.
    pose proof (save_raw_names self data (total_chunks (metadata st) + 1)
                  (allocated st) id) as Hn.
    destruct (save_raw self data _ (allocated st)) as [[[]|e] st2];
      simpl in Hn.
    + destruct (_update_index_frame self (total_chunks (metadata st) + 1)
                  pos st2) as (_ & Hraw & _).
      rewrite Hraw in Hs. destruct (Hn Hs) as [->|Hold]; [lia|].
      apply Hr in Hold. lia.
    + destruct (Hn Hs) as [->|Hold]; [lia|]. apply Hr in Hold. lia.
Qed.

(** Every store reached from [create] through [write_block] calls satisfies
    the invariant. *)
Lemma run_writes_ok self ws st :
  store_ok self st -> store_ok self (run_writes self ws st).
Proof.
  revert st. induction ws as [|[data pos] ws IH]; intros st Hok; simpl;
    [assumption|].
  apply IH. now apply write_block_ok.
Qed.

(** ** Write, then read *)

(** C1.  On a created store, writing a chunk-shaped block [data] at an
    in-bounds grid position with [write_block] succeeds, and [get_chunk] at
    that position then returns [data].  (The new identifier has to fit the
    index array's [uint64] cells.) *)
Theorem write_block_then_get_chunk self st data pos :
  store_ok self st ->
  in_bounds pos (_index_matrix_dimension self) ->
  b_shape data = raw_chunk_size self ->
  total_chunks (metadata st) + 1 < 2 ^ 64 ->
  exists st',
    write_block self data pos st = (Ok tt, st') /\
    get_chunk self pos st' = (Ok data, st').
Proof.
  intros Hok Hb Hshape Hfit. exists (written st data pos). split.
  - now apply write_block_in_bounds.
  - pose proof (ok_counter _ _ Hok) as Hc.
    apply get_chunk_stored with (v := total_chunks (metadata st) + 1).
    + simpl. now rewrite (ok_grid _ _ Hok).
    + unfold cell. simpl. now rewrite lookup_insert_eq.
    + lia.
    + simpl. now rewrite lookup_insert_eq.
Qed.

Lemma ex_in_bounds : in_bounds [1; 0] (_index_matrix_dimension ex_self).
Proof. repeat constructor; simpl; lia. Qed.

Lemma write_block_then_get_chunk_witness :
  exists st',
    write_block ex_self ex_block1 [1; 0] (new_dataset ex_self) = (Ok tt, st') /\
    get_chunk ex_self [1; 0] st' = (Ok ex_block1, st').
Proof.
  apply (write_block_then_get_chunk ex_self (new_dataset ex_self) ex_block1 [1; 0]).
  - apply new_dataset_ok.
  - apply ex_in_bounds.
  - reflexivity.
  - simpl. lia.
Defined.

(** ** Write-once chunks *)

(** C3.  [save_raw] under an identifier that already names a chunk raises
    zarr's [ContainsArrayError] and leaves the store, the existing chunk
    included, as it was. *)
Theorem save_raw_existing self st data index chunk :
  raw st !! index = Some chunk ->
  save_raw self data index st = (Raise ContainsArrayError, st) /\
  raw (snd (save_raw self data index st)) !! index = Some chunk.
Proof.
  intros Hex.
  assert (Hrun : save_raw self data index st = (Raise ContainsArrayError, st)).
  { unfold save_raw, open_create_exclusive. run_M. now rewrite Hex. }
  rewrite Hrun. split; [reflexivity | exact Hex].
Qed.

Lemma save_raw_existing_witness :
  let st := written (new_dataset ex_self) ex_block1 [1; 0] in
  save_raw ex_self ex_block2 1 st = (Raise ContainsArrayError, st) /\
  raw (snd (save_raw ex_self ex_block2 1 st)) !! 1 = Some ex_block1.
Proof.
  apply (save_raw_existing ex_self
           (written (new_dataset ex_self) ex_block1 [1; 0]) ex_block2 1 ex_block1).
  reflexivity.
Defined.

(** ** Overwriting a position *)

(** C4.  Two writes [b1], [b2] at the same in-bounds position: the first
    chunk is still in [raw/] under the identifier it was given, [get_chunk]
    returns [b2], and [get_total_chunks] has grown by 2. *)
Theorem write_block_twice self st b1 b2 pos :
  store_ok self st ->
  in_bounds pos (_index_matrix_dimension self) ->
  b_shape b1 = raw_chunk_size self ->
  b_shape b2 = raw_chunk_size self ->
  total_chunks (metadata st) + 2 < 2 ^ 64 ->
  exists id1 st1 st2,
    fst (_get_next_index self st) = Ok id1 /\
    write_block self b1 pos st = (Ok tt, st1) /\
    getitem (indexes st1) pos = Ok (Scalar id1) /\
    write_block self b2 pos st1 = (Ok tt, st2) /\
    get_file self (Scalar id1) st2 = (Ok b1, st2) /\
    get_chunk self pos st2 = (Ok b2, st2) /\
    fst (get_total_chunks self st2) =
      Ok (total_chunks (metadata st) + 2) /\
    fst (get_total_chunks self st) = Ok (total_chunks (metadata st)).
Proof.
  intros Hok Hb Hs1 Hs2 Hfit.
  pose proof (ok_counter _ _ Hok) as Hc.
  pose proof (written_ok self st b1 pos Hok) as Hok1.
  set (st1 := written st b1 pos) in *.
  assert (Hb1 : in_bounds pos (z_shape (indexes st1)))
    by (simpl; now rewrite (ok_grid _ _ Hok)).
  exists (total_chunks (metadata st) + 1), st1, (written st1 b2 pos).
  split; [reflexivity|].
  split; [apply write_block_in_bounds; auto; lia|].
  split.
  { rewrite (getitem_in_bounds _ _ Hb1). unfold cell. simpl.
    now rewrite lookup_insert_eq. }
  split; [apply write_block_in_bounds; auto; simpl; lia|].
  split.
  { unfold get_file. run_M.
    rewrite lookup_insert_ne by lia. now rewrite lookup_insert_eq. }
  split.
  { apply get_chunk_stored with (v := total_chunks (metadata st1) + 1).
    - exact Hb1.
    - unfold cell. simpl. now rewrite lookup_insert_eq.
    - simpl. lia.
    - simpl. now rewrite lookup_insert_eq. }
  split; [|reflexivity].
  unfold get_total_chunks, read_metadata. run_M. f_equal. lia.
Qed.

Lemma write_block_twice_witness :
  exists id1 st1 st2,
    fst (_get_next_index ex_self (new_dataset ex_self)) = Ok id1 /\
    write_block ex_self ex_block1 [1; 0] (new_dataset ex_self) = (Ok tt, st1) /\
    getitem (indexes st1) [1; 0] = Ok (Scalar id1) /\
    write_block ex_self ex_block2 [1; 0] st1 = (Ok tt, st2) /\
    get_file ex_self (Scalar id1) st2 = (Ok ex_block1, st2) /\
    get_chunk ex_self [1; 0] st2 = (Ok ex_block2, st2) /\
    fst (get_total_chunks ex_self st2) =
      Ok (total_chunks (metadata (new_dataset ex_self)) + 2) /\
    fst (get_total_chunks ex_self (new_dataset ex_self)) =
      Ok (total_chunks (metadata (new_dataset ex_self))).
Proof.
  apply (write_block_twice ex_self (new_dataset ex_self) ex_block1 ex_block2 [1; 0]).
  - apply new_dataset_ok.
  - apply ex_in_bounds.
  - reflexivity.
  - reflexivity.
  - simpl. lia.
Defined.

(** ** Identifier allocation *)

Lemma allocations_above self calls st :
  Forall (fun id => total_chunks (metadata st) < id) (allocations self calls st).
Proof.
  revert self st. induction calls as [|[data pos|] calls IH]; intros self st;
    simpl.
  - constructor.
  - constructor; [lia|].
    specialize (IH self (snd (write_block self data pos st))).
    rewrite write_block_total_chunks in IH.
    eapply Forall_impl; [exact IH|]. simpl. intros; lia.
  - destruct (__init__ _ _ _); [apply IH | constructor].
Qed.

(** C2.  Over any session of [write_block] calls and process restarts on a
    store, the identifiers handed out by [_get_next_index] are strictly
    increasing, above the counter the session started from, and pairwise
    distinct. *)
Theorem allocations_strictly_increasing self calls st :
  StronglySorted Z.lt (allocations self calls st) /\
  Forall (fun id => total_chunks (metadata st) < id) (allocations self calls st) /\
  NoDup (allocations self calls st).
Proof.
  assert (Hsorted : forall calls self st,
             StronglySorted Z.lt (allocations self calls st)).
  { clear. induction calls as [|[data pos|] calls IH]; intros self st; simpl.
    - constructor.
    - constructor; [apply IH|].
      pose proof (allocations_above self calls
                    (snd (write_block self data pos st))) as Hab.
      rewrite write_block_total_chunks in Hab. exact Hab.
    - destruct (__init__ _ _ _); [apply IH | constructor]. }
  split; [apply Hsorted|]. split; [apply allocations_above|].
  specialize (Hsorted calls self st).
  induction Hsorted as [|id ids _ IH Hall]; constructor; [|exact IH].
  intros Hin. rewrite Forall_forall in Hall.
  specialize (Hall _ Hin). lia.
Qed.

(** ** Positions outside the grid *)

Lemma get_chunk_past_the_end self pos st e :
  normalize_selection pos (z_shape (indexes st)) = Raise e ->
  get_chunk self pos st = (Raise e, st).
Proof.
  intros Hn. unfold get_chunk. run_M. unfold getitem. now rewrite Hn.
Qed.

Lemma write_block_past_the_end self pos data st e :
  store_ok self st ->
  b_shape data = raw_chunk_size self ->
  normalize_selection pos (z_shape (indexes st)) = Raise e ->
  write_block self data pos st = (Raise e, saved st data).
Proof.
  intros Hok Hshape Hn. rewrite write_block_steps, save_raw_fresh;
    [|apply (store_ok_next_fresh _ _ Hok) | assumption].
  unfold _update_index. run_M. unfold setitem. simpl. now rewrite Hn.
Qed.

(** C6, as the code has it.  At a position with a coordinate at or past the
    end of its axis, [get_chunk] raises an [IndexError] and the store is
    unchanged.  [write_block] of a chunk-shaped block raises the same error
    and the index array is unchanged, but by then the allocator's counter
    has been incremented and the block has been saved under the new
    identifier. *)
Theorem access_past_the_end self st data pos :
  store_ok self st ->
  past_the_end pos (_index_matrix_dimension self) ->
  b_shape data = raw_chunk_size self ->
  exists e,
    is_index_error e = true /\
    get_chunk self pos st = (Raise e, st) /\
    write_block self data pos st = (Raise e, saved st data) /\
    indexes (saved st data) = indexes st /\
    total_chunks (metadata (saved st data)) = total_chunks (metadata st) + 1 /\
    raw (saved st data) = <[total_chunks (metadata st) + 1 := data]> (raw st).
Proof.
  intros Hok Hpast Hshape. rewrite <- (ok_grid _ _ Hok) in Hpast.
  destruct (normalize_selection_past_the_end _ _ Hpast) as (e & Hn & He).
  exists e. split; [exact He|].
  split; [now apply get_chunk_past_the_end|].
  split; [now apply write_block_past_the_end|].
  repeat split.
Qed.

Lemma ex_past_the_end : past_the_end [2; 0] (_index_matrix_dimension ex_self).
Proof. exists 0%nat, 2, 2. repeat split. simpl. lia. Qed.

Lemma access_past_the_end_witness :
  exists e,
    is_index_error e = true /\
    get_chunk ex_self [2; 0] (new_dataset ex_self) =
      (Raise e, new_dataset ex_self) /\
    write_block ex_self ex_block1 [2; 0] (new_dataset ex_self) =
      (Raise e, saved (new_dataset ex_self) ex_block1) /\
    indexes (saved (new_dataset ex_self) ex_block1) =
      indexes (new_dataset ex_self) /\
    total_chunks (metadata (saved (new_dataset ex_self) ex_block1)) =
      total_chunks (metadata (new_dataset ex_self)) + 1 /\
    raw (saved (new_dataset ex_self) ex_block1) =
      <[total_chunks (metadata (new_dataset ex_self)) + 1 := ex_block1]>
        (raw (new_dataset ex_self)).
Proof.
  apply (access_past_the_end ex_self (new_dataset ex_self) ex_block1 [2; 0]).
  - apply new_dataset_ok.
  - apply ex_past_the_end.
  - reflexivity.
Defined.

(** C6 as stated fails for [write_block]: at position (2, 0) of the 2 x 2
    grid the call raises, and the store is not the one it started from. *)
Lemma write_block_past_the_end_changes_store :
  past_the_end [2; 0] (_index_matrix_dimension ex_self) /\
  store_ok ex_self (new_dataset ex_self) /\
  b_shape ex_block1 = raw_chunk_size ex_self /\
  ~ rejected_unchanged (write_block ex_self ex_block1 [2; 0])
      (new_dataset ex_self).
Proof.
  split; [apply ex_past_the_end|].
  split; [apply new_dataset_ok|].
  split; [reflexivity|].
  intros (e & _ & Hrun).
  apply (f_equal (fun r => raw (snd r) !! 1)) in Hrun.
  rewrite (write_block_past_the_end ex_self [2; 0] ex_block1
             (new_dataset ex_self) BoundsCheckError) in Hrun;
    [|apply new_dataset_ok | reflexivity | reflexivity].
  simpl in Hrun. rewrite lookup_insert_eq, lookup_empty in Hrun.
  discriminate.
Qed.

(** ** Reading what was never written *)

Lemma is_prefix_app q c : is_prefix q (q ++ c) = true.
Proof.
  induction q as [|x q IH]; simpl; [reflexivity|].
  now rewrite Z.eqb_refl, IH.
Qed.

Lemma insert_all_lookup_other (q pos : list Z) (v : Z) (cs : list (list Z))
    (m : gmap (list Z) Z) :
  is_prefix q pos = false ->
  fold_right (fun c m => <[q ++ c := v]> m) m cs !! pos = m !! pos.
Proof.
  intros Hpre. induction cs as [|c cs IH]; simpl; [reflexivity|].
  rewrite lookup_insert_ne; [exact IH|].
  intros <-. rewrite is_prefix_app in Hpre. discriminate.
Qed.

Lemma setitem_other_cell z sel v z' pos :
  setitem z sel v = Ok z' ->
  selects sel (z_shape z) pos = false ->
  cell z' pos = cell z pos /\ z_shape z' = z_shape z.
Proof.
  unfold setitem, selects.
  destruct (normalize_selection sel (z_shape z)) as [q|]; [|discriminate].
  destruct (to_uint64 v) as [v'|]; [|discriminate].
  intros [= <-] Hpre. split; [|reflexivity].
  unfold cell. simpl. now rewrite insert_all_lookup_other.
Qed.

Lemma write_block_other_cell self data sel st pos :
  selects sel (z_shape (indexes st)) pos = false ->
  cell (indexes (snd (write_block self data sel st))) pos =
    cell (indexes st) pos /\
  z_shape (indexes (snd (write_block self data sel st))) =
    z_shape (indexes st).
Proof.
  intros Hsel. rewrite write_block_steps.
  pose proof (save_raw_indexes self data (total_chunks (metadata st) + 1)
                (allocated st)) as Hi.
  destruct (save_raw self data _ (allocated st)) as [[[]|e] st2];
    simpl in Hi; [|simpl; rewrite Hi; auto].
  unfold _update_index. run_M. rewrite Hi.
  destruct (setitem (indexes st) sel _) as [z'|e] eqn:Hset; simpl.
  - eapply setitem_other_cell; eauto.
  - rewrite Hi. auto.
Qed.

Lemma run_writes_other_cell self ws st pos :
  Forall (fun w => selects (snd w) (z_shape (indexes st)) pos = false) ws ->
  cell (indexes (run_writes self ws st)) pos = cell (indexes st) pos /\
  z_shape (indexes (run_writes self ws st)) = z_shape (indexes st).
Proof.
  revert st. induction ws as [|[data sel] ws IH]; intros st Hall; simpl;
    [auto|].
  apply Forall_cons_1 in Hall as [Hsel Hall]. simpl in Hsel.
  destruct (write_block_other_cell self data sel st pos Hsel) as [Hc Hs].
  rewrite <- Hs in Hall. destruct (IH _ Hall) as [Hc' Hs'].
  split; congruence.
Qed.

Lemma np_zeros_length shape dtype :
  length (b_data (np_zeros shape dtype)) = Z.to_nat (size_of_shape shape).
Proof. simpl. apply repeat_length. Qed.

Lemma np_zeros_all_zero shape dtype :
  Forall (fun x => x = 0) (b_data (np_zeros shape dtype)).
Proof.
  simpl. generalize (Z.to_nat (size_of_shape shape)) as n.
  induction n; simpl; constructor; auto.
Qed.

(** C7.  [create] on an absent location makes a store in which, after any
    [write_block] calls that did not write to the in-bounds position [pos],
    [get_chunk] at [pos] returns the all-zero block of the chunk shape (the
    shape is the chunk shape, there is one element per cell of it, and
    every element is 0) and [block_exists] returns 0, Python's [False]. *)
Theorem untouched_position_reads_zero self overwrite ws pos :
  in_bounds pos (_index_matrix_dimension self) ->
  Forall (fun w => selects (snd w) (_index_matrix_dimension self) pos = false)
         ws ->
  exists st0 blk,
    create self overwrite None = (Ok tt, Some st0) /\
    let st := run_writes self ws st0 in
    get_chunk self pos st = (Ok blk, st) /\
    b_shape blk = raw_chunk_size self /\
    length (b_data blk) = Z.to_nat (size_of_shape (raw_chunk_size self)) /\
    Forall (fun x => x = 0) (b_data blk) /\
    block_exists self pos st = (Ok 0, st).
Proof.
  intros Hb Hall.
  exists (new_dataset self), (np_zeros (raw_chunk_size self) uint64).
  split; [reflexivity|]. cbv zeta.
  destruct (run_writes_other_cell self ws (new_dataset self) pos Hall)
    as [Hc Hs].
  assert (Hb' : in_bounds pos
                  (z_shape (indexes (run_writes self ws (new_dataset self)))))
    by now rewrite Hs.
  assert (Hzero : cell (indexes (run_writes self ws (new_dataset self))) pos = 0)
    by (rewrite Hc; unfold cell; simpl; now rewrite lookup_empty).
  split; [now apply get_chunk_empty|].
  split; [reflexivity|].
  split; [apply np_zeros_length|].
  split; [apply np_zeros_all_zero|].
  rewrite (block_exists_cell _ _ _ Hb'), Hzero. reflexivity.
Qed.

Lemma untouched_position_reads_zero_witness :
  exists st0 blk,
    create ex_self false None = (Ok tt, Some st0) /\
    let st := run_writes ex_self [(ex_block1, [1; 0]); (ex_block2, [-1; 1])] st0 in
    get_chunk ex_self [0; 1] st = (Ok blk, st) /\
    b_shape blk = raw_chunk_size ex_self /\
    length (b_data blk) = Z.to_nat (size_of_shape (raw_chunk_size ex_self)) /\
    Forall (fun x => x = 0) (b_data blk) /\
    block_exists ex_self [0; 1] st = (Ok 0, st).
Proof.
  apply (untouched_position_reads_zero ex_self false
           [(ex_block1, [1; 0]); (ex_block2, [-1; 1])] [0; 1]).
  - repeat constructor; simpl; lia.
  - repeat constructor.
Defined.

(** ** Creating over an existing location *)



(** ** Bulk fill *)

(** C9, as the code has it.  A source that is not a dask array is refused
    with [InvalidDataDaskFillError] before the index array is opened, unless
    it is [None]: then the call returns normally and does nothing. *)
Theorem fill_index_dataset_not_dask da_store self data st :
  as_dask_array data = None ->
  (is_not_None data = true ->
   fill_index_dataset da_store self data st =
     (Raise (InvalidDataDaskFillError (type_of data)), st)) /\
  (is_not_None data = false ->
   fill_index_dataset da_store self data st = (Ok tt, st)).
Proof.
  intros Hnot. unfold fill_index_dataset. rewrite Hnot.
  split; intros ->; reflexivity.
Qed.

Lemma fill_index_dataset_not_dask_witness :
  fill_index_dataset da_store_same_shape ex_self (PyNdarray ex_block1)
      (new_dataset ex_self) =
    (Raise (InvalidDataDaskFillError TyNdarray), new_dataset ex_self) /\
  fill_index_dataset da_store_same_shape ex_self PyNone (new_dataset ex_self) =
    (Ok tt, new_dataset ex_self).
Proof.
  split.
  - apply (fill_index_dataset_not_dask da_store_same_shape ex_self
             (PyNdarray ex_block1) (new_dataset ex_self)); reflexivity.
  - apply (fill_index_dataset_not_dask da_store_same_shape ex_self
             PyNone (new_dataset ex_self)); reflexivity.
Defined.

(** C9 as stated fails at [None]: it is not a dask array, and the call does
    not raise. *)
Lemma fill_index_dataset_None_returns :
  as_dask_array PyNone = None /\
  ~ exists e,
      fst (fill_index_dataset da_store_same_shape ex_self PyNone
             (new_dataset ex_self)) = Raise e.
Proof.
  split; [reflexivity|]. intros [e He]. discriminate He.
Qed.

(** ** The element type of an empty read *)

(** C10.  Where the index entry is 0, [get_chunk] returns zeros of element
    type [uint64] and of the chunk shape (one element per cell of it),
    whatever the store's [d_type].  A written position returns the block
    with the element type it was written with, so the two differ as soon
    as a block of another element type is written there: they do in a
    newly created store of [int8]. *)
Theorem get_chunk_empty_is_uint64 self st pos :
  in_bounds pos (z_shape (indexes st)) ->
  cell (indexes st) pos = 0 ->
  (exists blk,
     get_chunk self pos st = (Ok blk, st) /\
     b_dtype blk = uint64 /\
     b_shape blk = raw_chunk_size self /\
     length (b_data blk) = Z.to_nat (size_of_shape (raw_chunk_size self)) /\
     Forall (fun x => x = 0) (b_data blk)) /\
  (forall data,
     store_ok self st ->
     b_shape data = raw_chunk_size self ->
     total_chunks (metadata st) + 1 < 2 ^ 64 ->
     b_dtype data <> uint64 ->
     exists blk st',
       get_chunk self pos st = (Ok blk, st) /\
       write_block self data pos st = (Ok tt, st') /\
       get_chunk self pos st' = (Ok data, st') /\
       b_dtype blk <> b_dtype data) /\
  (exists self' st0 st1 data pos' blk,
     d_type self' = int8 /\ b_dtype data = d_type self' /\
     create self' false None = (Ok tt, Some st0) /\
     get_chunk self' pos' st0 = (Ok blk, st0) /\
     b_dtype blk = uint64 /\
     length (b_data blk) = Z.to_nat (size_of_shape (raw_chunk_size self')) /\
     write_block self' data pos' st0 = (Ok tt, st1) /\
     get_chunk self' pos' st1 = (Ok data, st1) /\
     b_dtype blk <> b_dtype data).
Proof.
  intros Hb Hzero. split; [|split].
  - exists (np_zeros (raw_chunk_size self) uint64).
    split; [now apply get_chunk_empty|].
    split; [reflexivity|]. split; [reflexivity|].
    split; [apply np_zeros_length | apply np_zeros_all_zero].
  - intros data Hok Hshape Hfit Hdt.
    pose proof (ok_counter _ _ Hok) as Hc.
    exists (np_zeros (raw_chunk_size self) uint64), (written st data pos).
    split; [now apply get_chunk_empty|].
    split.
    { apply write_block_in_bounds; auto. now rewrite <- (ok_grid _ _ Hok). }
    split.
    { apply get_chunk_stored with (v := total_chunks (metadata st) + 1).
      - exact Hb.
      - unfold cell. simpl. now rewrite lookup_insert_eq.
      - lia.
      - simpl. now rewrite lookup_insert_eq. }
    simpl. congruence.
  - exists ex_self, (new_dataset ex_self),
      (written (new_dataset ex_self) ex_block1 [1; 0]), ex_block1, [1; 0],
      (np_zeros (raw_chunk_size ex_self) uint64).
    repeat (split; [reflexivity|]). discriminate.
Qed.

Lemma get_chunk_empty_is_uint64_witness :
  let st := written (new_dataset ex_self) ex_block1 [1; 0] in
  (exists blk,
     get_chunk ex_self [0; 1] st = (Ok blk, st) /\
     b_dtype blk = uint64 /\
     b_shape blk = raw_chunk_size ex_self /\
     length (b_data blk) = Z.to_nat (size_of_shape (raw_chunk_size ex_self)) /\
     Forall (fun x => x = 0) (b_data blk)) /\
  (exists blk st',
     get_chunk ex_self [0; 1] st = (Ok blk, st) /\
     write_block ex_self ex_block2 [0; 1] st = (Ok tt, st') /\
     get_chunk ex_self [0; 1] st' = (Ok ex_block2, st') /\
     b_dtype blk <> b_dtype ex_block2).
Proof.
  destruct (get_chunk_empty_is_uint64 ex_self
              (written (new_dataset ex_self) ex_block1 [1; 0]) [0; 1])
    as (Hempty & Hwrite & _).
  - repeat constructor; simpl; lia.
  - reflexivity.
  - split; [exact Hempty|].
    apply (Hwrite ex_block2).
    + apply written_ok, new_dataset_ok.
    + reflexivity.
    + simpl. lia.
    + discriminate.
Defined.

(** ** Grid dimensions *)

Lemma quot_log2_le a b : 0 < a -> 0 < b -> quot_log2 a b <= Z.log2 a.
Proof.
  intros Ha Hb. unfold quot_log2. pose proof (Z.log2_nonneg b).
  destruct (quot_ge_pow2 _ _ _); lia.
Qed.

(** [a / b >= 2 ^ quot_log2 a b], cross-multiplied. *)
Lemma quot_log2_spec a b :
  0 < a -> 0 < b ->
  let L := quot_log2 a b in
  if 0 <=? L then b * 2 ^ L <= a else b <= a * 2 ^ (- L).
Proof.
  intros Ha Hb. unfold quot_log2.
  set (l := Z.log2 a - Z.log2 b).
  destruct (quot_ge_pow2 a b l) eqn:Hge; cbv zeta.
  - unfold quot_ge_pow2 in Hge.
    destruct (0 <=? l); [apply Z.leb_le in Hge | apply Z.leb_le in Hge]; exact Hge.
  - clear Hge.
    destruct (Z.log2_spec a Ha) as [Ha1 Ha2].
    destruct (Z.log2_spec b Hb) as [Hb1 Hb2].
    pose proof (Z.log2_nonneg a) as Hla. pose proof (Z.log2_nonneg b) as Hlb.
    destruct (Z.leb_spec 0 (l - 1)) as [Hl|Hl].
    + assert (Hs : 2 ^ Z.succ (Z.log2 b) * 2 ^ (l - 1) = 2 ^ Z.log2 a).
      { rewrite <- Z.pow_add_r by lia. f_equal. lia. }
      assert (0 < 2 ^ (l - 1)) by (apply Z.pow_pos_nonneg; lia).
      nia.
    + assert (Hs : 2 ^ Z.log2 a * 2 ^ (- (l - 1)) = 2 ^ Z.succ (Z.log2 b)).
      { rewrite <- Z.pow_add_r by lia. f_equal. lia. }
      assert (0 < 2 ^ (- (l - 1))) by (apply Z.pow_pos_nonneg; lia).
      nia.
Qed.

(** The significand has its 53 bits: [a / b * 2 ^ (52 - L) >= 2 ^ 52]. *)
Lemma quot_log2_scaled a b :
  0 < a -> 0 < b -> quot_log2 a b <= 52 ->
  b * 2 ^ 52 <= a * 2 ^ (52 - quot_log2 a b).
Proof.
  intros Ha Hb Hle. pose proof (quot_log2_spec a b Ha Hb) as Hs. cbv zeta in Hs.
  set (L := quot_log2 a b) in *.
  destruct (Z.leb_spec 0 L) as [HL|HL].
  - assert (Hp : 2 ^ L * 2 ^ (52 - L) = 2 ^ 52)
      by (rewrite <- Z.pow_add_r by lia; f_equal; lia).
    assert (0 < 2 ^ (52 - L)) by (apply Z.pow_pos_nonneg; lia).
    rewrite <- Hp. nia.
  - assert (Hp : 2 ^ (- L) * 2 ^ 52 = 2 ^ (52 - L))
      by (rewrite <- Z.pow_add_r by lia; f_equal; lia).
    rewrite <- Hp. assert (0 < 2 ^ 52) by lia. nia.
Qed.

(** Below 2^53 the rounded significand never reaches the next integer. *)
Lemma round_half_even_shift a b P :
  0 < a < 2 ^ 53 -> 0 < b -> 0 < P ->
  b * 2 ^ 52 <= a * P ->
  round_half_even (a * P) b / P = a / b.
Proof.
  intros [Ha Ha53] Hb HP Hscaled.
  assert (Hfloor : a * P / b / P = a / b).
  { rewrite Z.div_div by lia.
    rewrite Z.div_mul_cancel_r by lia. reflexivity. }
  assert (Hup : 2 * (a * P mod b) >= b -> (a * P / b + 1) / P = a / b).
  { intros Hr.
    pose proof (Z.div_mod (a * P) b ltac:(lia)) as Hm0.
    pose proof (Z.mod_pos_bound (a * P) b Hb) as Hrb.
    pose proof (Z.div_mod a b ltac:(lia)) as Hk.
    pose proof (Z.mod_pos_bound a b Hb) as Hkb.
    pose proof (Z.div_mod (a * P / b) P ltac:(lia)) as Hm1.
    pose proof (Z.mod_pos_bound (a * P / b) P HP) as Hm1b.
    rewrite Hfloor in Hm1.
    set (m0 := a * P / b) in *. set (r := a * P mod b) in *.
    set (k := a / b) in *. set (rho := a mod b) in *.
    set (t := m0 mod P) in *.
    symmetry. apply (Z.div_unique_pos _ _ _ (t + 1)); [|lia].
    split; [lia|].
    destruct (Z.eq_dec (t + 1) P) as [Heq|Hne]; [exfalso | lia].
    assert (H1 : (b - rho) * P = b - r) by nia.
    assert (H2 : P <= b - r) by nia.
    assert (H3 : 2 * P <= b) by lia.
    assert (H4 : 2 * P * 2 ^ 52 <= a * P) by nia.
    assert (H5 : 2 ^ 53 = 2 * 2 ^ 52) by reflexivity.
    nia. }
  unfold round_half_even.
  destruct (2 * (a * P mod b) ?= b) eqn:Hc.
  - destruct (Z.even _); [exact Hfloor|].
    apply Hup. apply Z.compare_eq in Hc. lia.
  - exact Hfloor.
  - apply Hup. apply Z.compare_gt_iff in Hc. lia.
Qed.

(** [int(a / b)] is the floored quotient while [a] is below 2^53. *)
Lemma int_truediv_exact a b :
  0 < a < 2 ^ 53 -> 0 < b ->
  exists q, truediv a b = Ok q /\ int_of_float q = a / b.
Proof.
  intros [Ha Ha53] Hb.
  pose proof (quot_log2_le a b Ha Hb) as HL.
  assert (Hlog : Z.log2 a < 53) by (apply Z.log2_lt_pow2; lia).
  assert (HL52 : quot_log2 a b <= 52) by lia.
  pose proof (quot_log2_scaled a b Ha Hb HL52) as Hscaled.
  unfold truediv.
  destruct (Z.eqb_spec b 0) as [|_]; [lia|].
  destruct (Z.eqb_spec a 0) as [|_]; [lia|].
  rewrite (Z.abs_eq a), (Z.abs_eq b) by lia. cbv zeta.
  rewrite (Z.sgn_pos a), (Z.sgn_pos b) by lia.
  set (L := quot_log2 a b) in *. unfold significand.
  destruct (Z.leb_spec 0 (L - 52)) as [He|He].
  - assert (HeqL : L - 52 = 0) by lia. rewrite HeqL.
    change (2 ^ 0) with 1. rewrite !Z.mul_1_r.
    replace (52 - L) with 0 in Hscaled by lia.
    change (2 ^ 0) with 1 in Hscaled.
    pose proof (round_half_even_shift a b 1 (conj Ha Ha53) Hb ltac:(lia) Hscaled)
      as Hr.
    rewrite Z.mul_1_r, Z.div_1_r in Hr.
    assert (Hq : a / b <= a) by (apply Z.div_le_upper_bound; nia).
    assert (Hbig : 2 ^ 53 < 2 ^ 1024) by (apply Z.pow_lt_mono_r; lia).
    destruct (Z.leb_spec (2 ^ 1024) (round_half_even a b)) as [Hov|_];
      [lia|].
    simpl andb. cbv iota. eexists. split; [reflexivity|].
    unfold int_of_float. simpl f_sign. simpl f_mant. simpl f_expo.
    change (0 <=? 0) with true. cbv iota.
    change (2 ^ 0) with 1. lia.
  - simpl andb. cbv iota. eexists. split; [reflexivity|].
    unfold int_of_float. simpl f_sign. simpl f_mant. simpl f_expo.
    destruct (Z.leb_spec 0 (L - 52)) as [|_]; [lia|].
    replace (- (L - 52)) with (52 - L) by lia.
    rewrite !Z.mul_1_l.
    apply round_half_even_shift; auto.
    apply Z.pow_pos_nonneg; lia.
Qed.

Lemma ceil_div_floor a b :
  0 < b -> ceil_div a b = if 0 <? a mod b then a / b + 1 else a / b.
Proof.
  intros Hb. unfold ceil_div.
  pose proof (Z.mod_pos_bound a b Hb) as Hm.
  destruct (Z.ltb_spec 0 (a mod b)) as [Hpos|Hzero].
  - rewrite Z.div_opp_l_nz by lia. lia.
  - rewrite Z.div_opp_l_z by lia. lia.
Qed.

(** On shapes below 2^53 the grid is the ceiling in every axis. *)
Lemma _get_grid_dimensions_ceil dimension chunk_size :
  Forall2 (fun d c => 0 < d < 2 ^ 53 /\ 0 < c) dimension chunk_size ->
  _get_grid_dimensions dimension chunk_size =
    Ok (ceil_divs dimension chunk_size).
Proof.
  induction 1 as [|d c dimension chunk_size [Hd Hc] _ IH]; [reflexivity|].
  cbn [_get_grid_dimensions ceil_divs].
  destruct (int_truediv_exact d c Hd Hc) as (q & -> & ->).
  rewrite IH, (ceil_div_floor d c Hc). reflexivity.
Qed.

(** C5 at a shape past 2^53.  [int(dimension[i] / chunk_size[i])] goes
    through a float: for an axis of length 2^53 + 1 in chunks of 1 the
    quotient rounds to 2^53, the remainder is 0, and the grid has one cell
    fewer than the ceiling.  For 2^60 - 1 in chunks of 2^60 the quotient
    rounds up to 1.0 and the remainder adds another cell. *)
Theorem _get_grid_dimensions_float_rounding :
  _get_grid_dimensions [9007199254740993] [1] = Ok [9007199254740992] /\
  ceil_div 9007199254740993 1 = 9007199254740993 /\
  _get_grid_dimensions [2 ^ 60 - 1] [2 ^ 60] = Ok [2] /\
  ceil_div (2 ^ 60 - 1) (2 ^ 60) = 1 /\
  _get_grid_dimensions [100; 100] [64; 64] = Ok [2; 2].
Proof. repeat split; vm_compute; reflexivity. Qed.

(** * Further properties of the code *)

(** ** The grid, axis by axis *)

Lemma ceil_div_positive d c : 0 < d -> 0 < c -> 1 <= ceil_div d c.
Proof.
  intros Hd Hc. rewrite (ceil_div_floor d c Hc).
  pose proof (Z.div_mod d c ltac:(lia)) as Hdm.
  pose proof (Z.mod_pos_bound d c Hc) as Hm.
  assert (0 <= d / c) by (apply Z.div_pos; lia).
  destruct (Z.ltb_spec 0 (d mod c)); [lia | nia].
Qed.

Lemma ceil_divs_lookup dimension chunk_size (i : nat) d c :
  dimension !! i = Some d -> chunk_size !! i = Some c ->
  ceil_divs dimension chunk_size !! i = Some (ceil_div d c).
Proof.
  revert chunk_size i.
  induction dimension as [|d' dimension IH]; intros [|c' chunk_size] [|i];
    simpl; try discriminate.
  - now intros [= ->] [= ->].
  - apply IH.
Qed.

Lemma ceil_divs_length dimension chunk_size :
  length dimension = length chunk_size ->
  length (ceil_divs dimension chunk_size) = length dimension.
Proof.
  revert chunk_size.
  induction dimension as [|d dimension IH]; intros [|c chunk_size]; simpl;
    try discriminate; [reflexivity|].
  intros [= Hlen]. f_equal. now apply IH.
Qed.

(** X1.  For shapes and chunk shapes of equal rank, with every shape entry
    positive and below 2^53 and every chunk entry positive,
    [_get_grid_dimensions] returns, and its entry for each axis is the
    ceiling of shape over chunk, at least 1. *)
Theorem grid_dimensions_are_ceilings dimension chunk_size :
  Forall2 (fun d c => 0 < d < 2 ^ 53 /\ 0 < c) dimension chunk_size ->
  exists grid,
    _get_grid_dimensions dimension chunk_size = Ok grid /\
    length grid = length dimension /\
    forall (i : nat) d c,
      dimension !! i = Some d -> chunk_size !! i = Some c ->
      grid !! i = Some (ceil_div d c) /\ 1 <= ceil_div d c.
Proof.
  intros Hall. exists (ceil_divs dimension chunk_size).
  split; [now apply _get_grid_dimensions_ceil|].
  split; [apply ceil_divs_length; eapply Forall2_length; eauto|].
  intros i d c Hd Hc. split; [now apply ceil_divs_lookup|].
  destruct (Forall2_lookup_lr _ _ _ _ _ _ Hall Hd Hc) as [[Hd0 _] Hc0].
  now apply ceil_div_positive.
Qed.

Lemma grid_dimensions_are_ceilings_witness :
  exists grid,
    _get_grid_dimensions [100; 64; 1] [64; 64; 7] = Ok grid /\
    length grid = length [100; 64; 1] /\
    forall (i : nat) d c,
      [100; 64; 1] !! i = Some d -> [64; 64; 7] !! i = Some c ->
      grid !! i = Some (ceil_div d c) /\ 1 <= ceil_div d c.
Proof.
  apply (grid_dimensions_are_ceilings [100; 64; 1] [64; 64; 7]).
  repeat constructor; simpl; lia.
Defined.

Lemma truediv_Ok_nonzero d c q : truediv d c = Ok q -> c <> 0.
Proof.
  unfold truediv. destruct (Z.eqb_spec c 0); [discriminate | auto].
Qed.

(** X2.  When [_get_grid_dimensions] returns, the grid has the rank of the
    shape, the chunk shape has at least that many entries, and none of the
    entries used is 0: a chunk shape that is too short, or has a zero, makes
    the call raise. *)
Theorem grid_dimensions_returns dimension chunk_size grid :
  _get_grid_dimensions dimension chunk_size = Ok grid ->
  length grid = length dimension /\
  (length dimension <= length chunk_size)%nat /\
  Forall (fun c => c <> 0) (take (length dimension) chunk_size).
Proof.
  revert chunk_size grid.
  induction dimension as [|d dimension IH]; intros chunk_size grid; simpl.
  - intros [= <-]. repeat split; [lia | constructor].
  - destruct chunk_size as [|c chunk_size]; [discriminate|].
    destruct (truediv d c) as [q|] eqn:Hq; [|discriminate].
    destruct (_get_grid_dimensions dimension chunk_size) as [rest|] eqn:Hrest;
      [|discriminate].
    intros [= <-]. destruct (IH _ _ Hrest) as (Hlen & Hle & Hnz).
    simpl. repeat split; [lia | lia |].
    constructor; [eapply truediv_Ok_nonzero; eauto | exact Hnz].
Qed.

Lemma grid_dimensions_returns_witness :
  length [2; 1] = length [100; 7] /\
  (length [100; 7] <= length [64; 7; 5])%nat /\
  Forall (fun c => c <> 0) (take (length [100; 7]) [64; 7; 5]).
Proof.
  apply (grid_dimensions_returns [100; 7] [64; 7; 5] [2; 1]).
  vm_compute. reflexivity.
Defined.

Lemma default_chunks_ok shp :
  Forall (fun d => 0 < d < 2 ^ 53) shp ->
  Forall2 (fun d c => 0 < d < 2 ^ 53 /\ 0 < c) shp
          (repeat DEFAULT_RAW_CHUNK_SIZE (length shp)).
Proof.
  induction 1; simpl; constructor; auto.
  split; [assumption | reflexivity].
Qed.

Lemma ceil_divs_default shp :
  ceil_divs shp (repeat DEFAULT_RAW_CHUNK_SIZE (length shp)) =
    map (fun d => ceil_div d DEFAULT_RAW_CHUNK_SIZE) shp.
Proof. induction shp; simpl; [reflexivity | now f_equal]. Qed.

(** X3.  Constructing a [VersionedData] without [raw_chunk_size], for a
    shape with entries positive and below 2^53, succeeds with chunks of 128
    in every axis and a grid of [ceil(shape[i] / 128)] cells per axis. *)
Theorem init_default_chunk_size shp dtype :
  Forall (fun d => 0 < d < 2 ^ 53) shp ->
  __init__ shp None dtype =
    Ok (mkVersionedData shp (repeat 128 (length shp)) dtype
          (map (fun d => ceil_div d 128) shp)).
Proof.
  intros Hall. unfold __init__.
  rewrite (_get_grid_dimensions_ceil _ _ (default_chunks_ok shp Hall)).
  now rewrite ceil_divs_default.
Qed.

Lemma init_default_chunk_size_witness :
  __init__ [1000; 128; 1] None float32 =
    Ok (mkVersionedData [1000; 128; 1] (repeat 128 (length [1000; 128; 1]))
          float32 (map (fun d => ceil_div d 128) [1000; 128; 1])).
Proof.
  apply (init_default_chunk_size [1000; 128; 1] float32).
  repeat constructor; simpl; lia.
Defined.

(** ** Reads, case by case *)

Lemma get_chunk_cell self pos st :
  in_bounds pos (z_shape (indexes st)) ->
  get_chunk self pos st =
    if 0 <? cell (indexes st) pos then
      match raw st !! cell (indexes st) pos with
      | Some z => (Ok z, st)
      | None => (Raise PathNotFoundError, st)
      end
    else (Ok (np_zeros (raw_chunk_size self) uint64), st).
Proof.
  intros Hb. unfold get_chunk, get_file. run_M.
  rewrite (getitem_in_bounds _ _ Hb). simpl.
  destruct (0 <? _); simpl; [|reflexivity].
  now destruct (raw st !! _).
Qed.

(** X4.  An index entry that names no chunk is not read as zeros:
    [get_chunk] raises zarr's [PathNotFoundError], while [block_exists],
    which looks at the index only, still answers 1. *)
Theorem get_chunk_dangling self pos st :
  in_bounds pos (z_shape (indexes st)) ->
  0 < cell (indexes st) pos ->
  raw st !! cell (indexes st) pos = None ->
  get_chunk self pos st = (Raise PathNotFoundError, st) /\
  block_exists self pos st = (Ok 1, st).
Proof.
  intros Hb Hpos Hnone.
  rewrite (get_chunk_cell _ _ _ Hb), (block_exists_cell _ _ _ Hb), Hnone.
  now destruct (Z.ltb_spec 0 (cell (indexes st) pos)); [|lia].
Qed.

Lemma get_chunk_dangling_witness :
  get_chunk ex_self [0; 1] ex_dangling = (Raise PathNotFoundError, ex_dangling) /\
  block_exists ex_self [0; 1] ex_dangling = (Ok 1, ex_dangling).
Proof.
  apply (get_chunk_dangling ex_self [0; 1] ex_dangling).
  - repeat constructor; simpl; lia.
  - vm_compute. reflexivity.
  - vm_compute. reflexivity.
Defined.

(** ** The chunk directory only grows *)

Lemma save_raw_keeps self data index st id c :
  raw st !! id = Some c ->
  raw (snd (save_raw self data index st)) !! id = Some c.
Proof.
  intros Hc. unfold save_raw, open_create_exclusive, assign_all. run_M.
  destruct (raw st !! index) eqn:Hex; simpl; [exact Hc|].
  assert (Hne : index <> id) by congruence.
  rewrite lookup_insert_eq. simpl.
  destruct (decide _); simpl; now repeat rewrite lookup_insert_ne by assumption.
Qed.

Lemma save_raw_Ok_stored self data index st :
  fst (save_raw self data index st) = Ok tt ->
  raw (snd (save_raw self data index st)) !! index = Some data.
Proof.
  unfold save_raw, open_create_exclusive, assign_all. run_M.
  destruct (raw st !! index) eqn:Hex; simpl; [discriminate|].
  rewrite lookup_insert_eq. simpl.
  destruct (decide _) as [Hs|]; simpl; [|discriminate].
  intros _. rewrite lookup_insert_eq. destruct data as [dt sh el].
  simpl in *. now subst sh.
Qed.

Lemma write_block_keeps self data pos st id c :
  raw st !! id = Some c ->
  raw (snd (write_block self data pos st)) !! id = Some c.
Proof.
  intros Hc. rewrite write_block_steps.
  pose proof (save_raw_keeps self data (total_chunks (metadata st) + 1)
                (allocated st) id c Hc) as Hk.
  destruct (save_raw self data _ (allocated st)) as [[[]|e] st2];
    simpl in Hk; [|exact Hk].
  destruct (_update_index_frame self (total_chunks (metadata st) + 1) pos st2)
    as (_ & -> & _).
  exact Hk.
Qed.

(** X5.  A chunk, once in [raw/], is still there with the same content
    after any further [write_block] calls, to any positions, succeeding or
    raising; [get_file] keeps returning it. *)
Theorem chunks_are_immutable self ws st id c :
  raw st !! id = Some c ->
  raw (run_writes self ws st) !! id = Some c /\
  get_file self (Scalar id) (run_writes self ws st) =
    (Ok c, run_writes self ws st).
Proof.
  intros Hc.
  assert (Hkeep : raw (run_writes self ws st) !! id = Some c).
  { revert st Hc. induction ws as [|[data pos] ws IH]; intros st Hc; simpl;
      [exact Hc|].
    apply IH. now apply write_block_keeps. }
  split; [exact Hkeep|]. unfold get_file. run_M. now rewrite Hkeep.
Qed.

Lemma chunks_are_immutable_witness :
  let st := written (new_dataset ex_self) ex_block1 [1; 0] in
  let ws := [(ex_block2, [1; 0]); (ex_block2, [5; 5]); (ex_block1, [0; 0])] in
  raw (run_writes ex_self ws st) !! 1 = Some ex_block1 /\
  get_file ex_self (Scalar 1) (run_writes ex_self ws st) =
    (Ok ex_block1, run_writes ex_self ws st).
Proof.
  apply (chunks_are_immutable ex_self
           [(ex_block2, [1; 0]); (ex_block2, [5; 5]); (ex_block1, [0; 0])]
           (written (new_dataset ex_self) ex_block1 [1; 0]) 1 ex_block1).
  reflexivity.
Defined.

(** X6.  A [write_block] through a selection that does not cover the grid
    position [q] leaves what [get_chunk] returns at [q] as it was. *)
Theorem write_block_elsewhere self data sel st q blk :
  in_bounds q (z_shape (indexes st)) ->
  selects sel (z_shape (indexes st)) q = false ->
  get_chunk self q st = (Ok blk, st) ->
  get_chunk self q (snd (write_block self data sel st)) =
    (Ok blk, snd (write_block self data sel st)).
Proof.
  intros Hb Hsel Hread.
  destruct (write_block_other_cell self data sel st q Hsel) as [Hcell Hshape].
  assert (Hb' : in_bounds q
                  (z_shape (indexes (snd (write_block self data sel st)))))
    by now rewrite Hshape.
  rewrite (get_chunk_cell _ _ _ Hb) in Hread.
  rewrite (get_chunk_cell _ _ _ Hb'), Hcell.
  destruct (0 <? cell (indexes st) q).
  - destruct (raw st !! cell (indexes st) q) as [z|] eqn:Hz; [|discriminate].
    rewrite (write_block_keeps _ _ _ _ _ _ Hz). congruence.
  - congruence.
Qed.

Lemma write_block_elsewhere_witness :
  let st := written (new_dataset ex_self) ex_block1 [1; 0] in
  get_chunk ex_self [1; 0] (snd (write_block ex_self ex_block2 [0; -1] st)) =
    (Ok ex_block1, snd (write_block ex_self ex_block2 [0; -1] st)).
Proof.
  apply (write_block_elsewhere ex_self ex_block2 [0; -1]
           (written (new_dataset ex_self) ex_block1 [1; 0]) [1; 0] ex_block1).
  - repeat constructor; simpl; lia.
  - reflexivity.
  - reflexivity.
Defined.

(** ** The index never points at a missing chunk *)

Lemma insert_all_lookup (q pos : list Z) (v : Z) (cs : list (list Z))
    (m : gmap (list Z) Z) :
  fold_right (fun c m => <[q ++ c := v]> m) m cs !! pos = m !! pos \/
  fold_right (fun c m => <[q ++ c := v]> m) m cs !! pos = Some v.
Proof.
  induction cs as [|c cs IH]; simpl; [now left|].
  destruct (decide (q ++ c = pos)) as [<-|Hne].
  - right. apply lookup_insert_eq.
  - now rewrite lookup_insert_ne.
Qed.

Lemma setitem_cells z sel v z' pos :
  setitem z sel v = Ok z' ->
  0 <= v /\ (cell z' pos = cell z pos \/ cell z' pos = v).
Proof.
  unfold setitem, to_uint64.
  destruct (normalize_selection sel (z_shape z)) as [q|]; [|discriminate].
  destruct (Z.leb_spec 0 v); simpl; [|discriminate].
  destruct (v <? 2 ^ 64); [|discriminate].
  intros [= <-]. split; [assumption|]. unfold cell. simpl.
  destruct (insert_all_lookup q pos v
              (grid_cells (drop (length q) (z_shape z))) (z_cells z))
    as [-> | ->]; auto.
Qed.

Lemma index_ok_grow st st' :
  index_ok st ->
  indexes st' = indexes st ->
  total_chunks (metadata st) <= total_chunks (metadata st') ->
  (forall id c, raw st !! id = Some c -> raw st' !! id = Some c) ->
  index_ok st'.
Proof.
  intros Hok Hi Ht Hk pos. rewrite Hi.
  destruct (Hok pos) as [Hz|[Hr [c Hc]]]; [now left | right].
  split; [lia | eauto].
Qed.

Lemma write_block_index_ok self data sel st :
  index_ok st -> index_ok (snd (write_block self data sel st)).
Proof.
  intros Hok. rewrite write_block_steps.
  pose proof (save_raw_metadata self data (total_chunks (metadata st) + 1)
                (allocated st)) as Hm.
  pose proof (save_raw_indexes self data (total_chunks (metadata st) + 1)
                (allocated st)) as Hi.
  pose proof (fun id c => save_raw_keeps self data
                (total_chunks (metadata st) + 1) (allocated st) id c) as Hk.
  pose proof (save_raw_Ok_stored self data (total_chunks (metadata st) + 1)
                (allocated st)) as Hs.
  destruct (save_raw self data _ (allocated st)) as [[[]|e] st2];
    simpl in Hm, Hi, Hk, Hs.
  - specialize (Hs eq_refl).
    assert (Hok2 : index_ok st2).
    { apply (index_ok_grow st); auto. rewrite Hm. simpl. lia. }
    unfold _update_index. run_M.
    destruct (setitem (indexes st2) sel _) as [z'|e] eqn:Hset; simpl;
      [|exact Hok2].
    intros pos. simpl.
    destruct (setitem_cells _ _ _ _ pos Hset) as [Hv [-> | ->]].
    + apply Hok2.
    + destruct (Z.eq_dec (total_chunks (metadata st) + 1) 0) as [Hz|Hnz];
        [now left | right].
      rewrite Hm. simpl. split; [lia | eauto].
  - simpl. apply (index_ok_grow st); auto. rewrite Hm. simpl. lia.
Qed.

Lemma run_writes_index_ok self ws st :
  index_ok st -> index_ok (run_writes self ws st).
Proof.
  revert st. induction ws as [|[data sel] ws IH]; intros st Hok; simpl;
    [assumption|].
  apply IH. now apply write_block_index_ok.
Qed.

Lemma new_dataset_index_ok self : index_ok (new_dataset self).
Proof. intros pos. left. unfold cell. simpl. now rewrite lookup_empty. Qed.

Lemma run_writes_shape self ws st :
  z_shape (indexes (run_writes self ws st)) = z_shape (indexes st).
Proof.
  revert st. induction ws as [|[data sel] ws IH]; intros st; simpl;
    [reflexivity|].
  now rewrite IH, write_block_other_shape.
Qed.

Lemma run_writes_total_chunks self ws st :
  total_chunks (metadata (run_writes self ws st)) =
    total_chunks (metadata st) + Z.of_nat (length ws).
Proof.
  revert st. induction ws as [|[data sel] ws IH]; intros st; simpl length;
    simpl run_writes; [lia|].
  rewrite IH, write_block_total_chunks. lia.
Qed.

(** X7.  In a store made by [create] and then used through [write_block]
    only, whatever the blocks and positions and whether the calls returned
    or raised, [get_chunk] at an in-bounds position never raises: the index
    entry is empty, or it names a chunk that is in [raw/]. *)
Theorem get_chunk_never_dangles self ws pos :
  in_bounds pos (_index_matrix_dimension self) ->
  let st := run_writes self ws (new_dataset self) in
  index_ok st /\
  exists blk, get_chunk self pos st = (Ok blk, st).
Proof.
  intros Hb st.
  assert (Hok : index_ok st)
    by apply run_writes_index_ok, new_dataset_index_ok.
  split; [exact Hok|].
  assert (Hb' : in_bounds pos (z_shape (indexes st)))
    by (unfold st; now rewrite run_writes_shape).
  rewrite (get_chunk_cell _ _ _ Hb').
  destruct (Hok pos) as [-> | [Hr [c ->]]]; [simpl; eauto|].
  destruct (0 <? _); eauto.
Qed.

Lemma get_chunk_never_dangles_witness :
  let st :=
    run_writes ex_self
      [(ex_block1, [1; 0]); (mkBlock int8 [3] [1; 2; 3], [1; 0]);
       (ex_block2, [7; 7]); (ex_block2, [0])]
      (new_dataset ex_self) in
  index_ok st /\
  exists blk, get_chunk ex_self [1; 0] st = (Ok blk, st).
Proof.
  apply (get_chunk_never_dangles ex_self
           [(ex_block1, [1; 0]); (mkBlock int8 [3] [1; 2; 3], [1; 0]);
            (ex_block2, [7; 7]); (ex_block2, [0])] [1; 0]).
  repeat constructor; simpl; lia.
Defined.


(** X9.  The chunk counter counts [write_block] calls, not chunks that
    ended up referenced: after [n] calls, returned or raised,
    [get_total_chunks] is [n] more than before. *)
Theorem total_chunks_counts_calls self ws st :
  get_total_chunks self (run_writes self ws st) =
    (Ok (total_chunks (metadata st) + Z.of_nat (length ws)),
     run_writes self ws st).
Proof.
  unfold get_total_chunks, read_metadata. run_M.
  now rewrite run_writes_total_chunks.
Qed.

(** ** A block of the wrong shape *)

Lemma save_raw_wrong_shape self data index st :
  raw st !! index = None ->
  b_shape data <> raw_chunk_size self ->
  save_raw self data index st =
    (Raise ValueError,
     mkStore (metadata st) (indexes st)
       (<[index := np_zeros (raw_chunk_size self) (b_dtype data)]> (raw st))).
Proof.
  intros Hfresh Hshape.
  unfold save_raw, open_create_exclusive, assign_all. run_M.
  rewrite Hfresh. simpl. rewrite lookup_insert_eq. simpl.
  now destruct (decide (b_shape data = raw_chunk_size self)).
Qed.



(** ** The chunk directory on its own *)

(** X11.  [save_raw] of a chunk-shaped block under an unused identifier
    returns, [get_file] of that identifier then returns the block, and no
    other chunk, index entry or metadata field has changed. *)
Theorem save_raw_then_get_file self st data index :
  raw st !! index = None ->
  b_shape data = raw_chunk_size self ->
  exists st',
    save_raw self data index st = (Ok tt, st') /\
    get_file self (Scalar index) st' = (Ok data, st') /\
    (forall id, id <> index -> raw st' !! id = raw st !! id) /\
    indexes st' = indexes st /\
    metadata st' = metadata st.
Proof.
  intros Hfresh Hshape. eexists. split; [now apply save_raw_fresh|].
  split; [unfold get_file; run_M; now rewrite lookup_insert_eq|].
  split; [|split; reflexivity].
  intros id Hne. simpl. now rewrite lookup_insert_ne.
Qed.

Lemma save_raw_then_get_file_witness :
  exists st',
    save_raw ex_self ex_block2 5 (written (new_dataset ex_self) ex_block1 [0; 0]) =
      (Ok tt, st') /\
    get_file ex_self (Scalar 5) st' = (Ok ex_block2, st') /\
    (forall id, id <> 5 ->
       raw st' !! id =
         raw (written (new_dataset ex_self) ex_block1 [0; 0]) !! id) /\
    indexes st' = indexes (written (new_dataset ex_self) ex_block1 [0; 0]) /\
    metadata st' = metadata (written (new_dataset ex_self) ex_block1 [0; 0]).
Proof.
  apply (save_raw_then_get_file ex_self
           (written (new_dataset ex_self) ex_block1 [0; 0]) ex_block2 5).
  - reflexivity.
  - reflexivity.
Defined.

(** ** Positions counted from the end *)

Lemma normalize_integer_range i d i' :
  normalize_integer_selection i d = Ok i' -> 0 <= i' < d.
Proof.
  unfold normalize_integer_selection. cbv zeta.
  destruct (Z.leb_spec d (if i <? 0 then d + i else i)); simpl;
    [discriminate|].
  destruct (Z.ltb_spec (if i <? 0 then d + i else i) 0); [discriminate|].
  intros [= <-]. lia.
Qed.

Lemma normalize_axes_range sel dims q :
  normalize_axes sel dims = Ok q -> length sel = length dims ->
  in_bounds q dims.
Proof.
  revert dims q. induction sel as [|i sel IH]; intros [|d dims] q; simpl;
    try discriminate.
  - intros [= <-] _. constructor.
  - destruct (normalize_integer_selection i d) as [i'|] eqn:Hi; [|discriminate].
    destruct (normalize_axes sel dims) as [r|] eqn:Hr; [|discriminate].
    intros [= <-] [= Hlen]. constructor.
    + eapply normalize_integer_range; eauto.
    + now apply IH.
Qed.

Lemma normalize_selection_range sel dims q :
  normalize_selection sel dims = Ok q -> length sel = length dims ->
  in_bounds q dims.
Proof.
  unfold normalize_selection. destruct (_ <? _)%nat; [discriminate|].
  apply normalize_axes_range.
Qed.

Lemma getitem_full_rank z sel q :
  normalize_selection sel (z_shape z) = Ok q ->
  length sel = length (z_shape z) ->
  getitem z sel = Ok (Scalar (cell z q)).
Proof.
  intros Hn Hlen. unfold getitem. rewrite Hn.
  pose proof (normalize_selection_range _ _ _ Hn Hlen) as Hb.
  now rewrite (Forall2_length _ _ _ Hb), Nat.eqb_refl.
Qed.

Lemma setitem_full_rank z sel q v :
  normalize_selection sel (z_shape z) = Ok q ->
  length sel = length (z_shape z) ->
  0 <= v < 2 ^ 64 ->
  setitem z sel v = Ok (mkIndexArray (z_shape z) (<[q := v]> (z_cells z))).
Proof.
  intros Hn Hlen [Hlo Hhi]. unfold setitem, to_uint64. rewrite Hn.
  pose proof (normalize_selection_range _ _ _ Hn Hlen) as Hb.
  destruct (Z.leb_spec 0 v); [|lia].
  destruct (Z.ltb_spec v (2 ^ 64)); [|lia]. simpl.
  rewrite (Forall2_length _ _ _ Hb), drop_all. simpl.
  now rewrite app_nil_r.
Qed.

(** X12.  A position with one coordinate per axis that the index accepts,
    negative coordinates counting from the end of their axis, is an alias
    of the in-bounds position it normalizes to: a [write_block] through it
    is read back by [get_chunk] through either, and [block_exists]
    answers 1. *)
Theorem write_block_from_the_end self st data sel q :
  store_ok self st ->
  normalize_selection sel (_index_matrix_dimension self) = Ok q ->
  length sel = length (_index_matrix_dimension self) ->
  b_shape data = raw_chunk_size self ->
  total_chunks (metadata st) + 1 < 2 ^ 64 ->
  in_bounds q (_index_matrix_dimension self) /\
  exists st',
    write_block self data sel st = (Ok tt, st') /\
    get_chunk self sel st' = (Ok data, st') /\
    get_chunk self q st' = (Ok data, st') /\
    block_exists self q st' = (Ok 1, st').
Proof.
  intros Hok Hn Hlen Hshape Hfit.
  pose proof (ok_counter _ _ Hok) as Hc.
  pose proof (normalize_selection_range _ _ _ Hn Hlen) as Hq.
  split; [exact Hq|]. rewrite <- (ok_grid _ _ Hok) in Hn, Hlen, Hq.
  exists (written st data q).
  assert (Hcell : cell (indexes (written st data q)) q =
                    total_chunks (metadata st) + 1)
    by (unfold cell; simpl; now rewrite lookup_insert_eq).
  assert (Hraw : raw (written st data q) !!
                   (total_chunks (metadata st) + 1) = Some data)
    by (simpl; now rewrite lookup_insert_eq).
  split.
  { rewrite write_block_steps, save_raw_fresh;
      [|apply (store_ok_next_fresh _ _ Hok) | assumption].
    unfold _update_index. run_M.
    rewrite (setitem_full_rank _ _ q) by (auto; lia). reflexivity. }
  split.
  { unfold get_chunk, get_file. run_M.
    rewrite (getitem_full_rank _ _ q) by auto. simpl.
    unfold cell. simpl. rewrite lookup_insert_eq. simpl.
    destruct (Z.ltb_spec 0 (total_chunks (metadata st) + 1)); [|lia].
    simpl. now rewrite lookup_insert_eq. }
  split.
  - apply get_chunk_stored with (v := total_chunks (metadata st) + 1);
      auto; lia.
  - rewrite block_exists_cell by exact Hq. rewrite Hcell.
    now destruct (Z.ltb_spec 0 (total_chunks (metadata st) + 1)); [|lia].
Qed.

Lemma write_block_from_the_end_witness :
  in_bounds [1; 0] (_index_matrix_dimension ex_self) /\
  exists st',
    write_block ex_self ex_block1 [-1; -2] (new_dataset ex_self) = (Ok tt, st') /\
    get_chunk ex_self [-1; -2] st' = (Ok ex_block1, st') /\
    get_chunk ex_self [1; 0] st' = (Ok ex_block1, st') /\
    block_exists ex_self [1; 0] st' = (Ok 1, st').
Proof.
  apply (write_block_from_the_end ex_self (new_dataset ex_self) ex_block1
           [-1; -2] [1; 0]).
  - apply new_dataset_ok.
  - reflexivity.
  - reflexivity.
  - reflexivity.
  - simpl. lia.
Defined.

(** ** Creating twice, and reopening *)

(** X13.  On a location that does not exist yet, [create] makes the new
    store, whatever [overwrite] says, and the store satisfies both
    invariants.  A later [create(overwrite=False)], through any object and
    after any [write_block] calls, returns and leaves the store, chunks and
    counter included, as it is. *)
Theorem create_then_create self self' overwrite ws :
  exists st,
    create self overwrite None = (Ok tt, Some st) /\
    store_ok self st /\ index_ok st /\
    create self' false (Some (run_writes self ws st)) =
      (Ok tt, Some (run_writes self ws st)) /\
    store_ok self (run_writes self ws st) /\
    index_ok (run_writes self ws st).
Proof.
  exists (new_dataset self).
  split; [reflexivity|].
  split; [apply new_dataset_ok|].
  split; [apply new_dataset_index_ok|].
  split; [reflexivity|].
  split; [apply run_writes_ok, new_dataset_ok|].
  apply run_writes_index_ok, new_dataset_index_ok.
Qed.

Lemma write_block_metadata self data sel st :
  metadata (snd (write_block self data sel st)) =
    with_total_chunks (metadata st) (total_chunks (metadata st) + 1).
Proof.
  rewrite write_block_steps.
  pose proof (save_raw_metadata self data (total_chunks (metadata st) + 1)
                (allocated st)) as Hm.
  destruct (save_raw self data _ (allocated st)) as [[[]|e] st2];
    simpl in Hm; [|exact Hm].
  destruct (_update_index_frame self (total_chunks (metadata st) + 1) sel st2)
    as (-> & _ & _).
  exact Hm.
Qed.

Lemma run_writes_metadata self ws st :
  md_shape (metadata (run_writes self ws st)) = md_shape (metadata st) /\
  md_chunks (metadata (run_writes self ws st)) = md_chunks (metadata st) /\
  md_dtype (metadata (run_writes self ws st)) = md_dtype (metadata st).
Proof.
  revert st. induction ws as [|[data sel] ws IH]; intros st; simpl; [auto|].
  destruct (IH (snd (write_block self data sel st))) as (-> & -> & ->).
  now rewrite write_block_metadata.
Qed.

(** X14.  An object built by [__init__], the store it creates, any number
    of [write_block] calls, and then [open] on the location: [open] returns
    an object equal to the first, field by field, grid included. *)
Theorem open_after_create shp chunks dtype self overwrite ws :
  __init__ shp chunks dtype = Ok self ->
  exists st0,
    create self overwrite None = (Ok tt, Some st0) /\
    open (Some (run_writes self ws st0)) = Ok self.
Proof.
  intros Hinit. exists (new_dataset self). split; [reflexivity|].
  unfold open.
  destruct (run_writes_metadata self ws (new_dataset self)) as (-> & -> & ->).
  simpl. unfold __init__ in *.
  destruct (_get_grid_dimensions shp _) as [grid|] eqn:Hgrid; [|discriminate].
  injection Hinit as <-. simpl. now rewrite Hgrid.
Qed.

Lemma open_after_create_witness :
  exists st0,
    create ex_self true None = (Ok tt, Some st0) /\
    open (Some (run_writes ex_self
                  [(ex_block1, [1; 0]); (ex_block2, [9; 9])] st0)) = Ok ex_self.
Proof.
  apply (open_after_create [4; 4] (Some [2; 2]) int8 ex_self true
           [(ex_block1, [1; 0]); (ex_block2, [9; 9])]).
  vm_compute. reflexivity.
Defined.

(** ** Bulk fill leaves chunks and counter alone *)

(** X15.  Whatever the source and whatever [da.store] does with the index,
    [fill_index_dataset] changes neither [raw/] nor the metadata, so the
    chunk counter is as before; with a source that is not a dask array the
    index is unchanged too. *)
Theorem fill_index_dataset_frame da_store self data st :
  raw (snd (fill_index_dataset da_store self data st)) = raw st /\
  metadata (snd (fill_index_dataset da_store self data st)) = metadata st /\
  fst (get_total_chunks self (snd (fill_index_dataset da_store self data st))) =
    fst (get_total_chunks self st) /\
  (as_dask_array data = None ->
   indexes (snd (fill_index_dataset da_store self data st)) = indexes st).
Proof.
  unfold fill_index_dataset, get_total_chunks, read_metadata.
  destruct data as [|a| | | |]; run_M; auto.
  destruct (da_store a (indexes st)) as [[[]|e] dest']; simpl;
    repeat split; discriminate.
Qed.

Lemma fill_index_dataset_frame_witness :
  indexes (snd (fill_index_dataset da_store_same_shape ex_self (PyInt 3)
                  (written (new_dataset ex_self) ex_block1 [1; 0]))) =
    indexes (written (new_dataset ex_self) ex_block1 [1; 0]).
Proof.
  apply (fill_index_dataset_frame da_store_same_shape ex_self (PyInt 3)
           (written (new_dataset ex_self) ex_block1 [1; 0])).
  reflexivity.
Defined.

(** ** Chunk keys *)

Lemma str_contains_append s1 s2 c :
  str_contains (String.append s1 s2) c =
    str_contains s1 c || str_contains s2 c.
Proof.
  induction s1 as [|a s1 IH]; simpl; [reflexivity|].
  now rewrite IH, orb_assoc.
Qed.

(** X16.  [_is_chunk_key] holds of a concatenation exactly when it holds of
    one of the parts; so every key that starts with the raw directory
    ["raw/"] is a chunk key, and a key made of parts without ["/"] is
    not. *)
Theorem _is_chunk_key_append s1 s2 :
  _is_chunk_key (String.append s1 s2) = _is_chunk_key s1 || _is_chunk_key s2 /\
  _is_chunk_key (String.append _raw_dir s2) = true.
Proof.
  unfold _is_chunk_key. rewrite !str_contains_append. split; reflexivity.
Qed.

(** ** Positions with too few coordinates *)

Lemma grid_cells_complete c dims : in_bounds c dims -> In c (grid_cells dims).
Proof.
  induction 1 as [|i d c dims Hi _ IH]; simpl; [now left|].
  apply in_flat_map. exists i. split.
  - apply list_elem_of_In, elem_of_seqZ. lia.
  - now apply in_map.
Qed.

Lemma insert_all_lookup_hit (q c : list Z) (v : Z) (cs : list (list Z))
    (m : gmap (list Z) Z) :
  In c cs ->
  fold_right (fun c m => <[q ++ c := v]> m) m cs !! (q ++ c) = Some v.
Proof.
  induction cs as [|c0 cs IH]; simpl; [contradiction|].
  intros [-> | Hin]; [apply lookup_insert_eq|].
  destruct (decide (q ++ c0 = q ++ c)) as [->|Hne].
  - apply lookup_insert_eq.
  - rewrite lookup_insert_ne by assumption. now apply IH.
Qed.

Lemma is_prefix_split q pos :
  is_prefix q pos = true -> pos = q ++ drop (length q) pos.
Proof.
  revert pos. induction q as [|x q IH]; intros [|y pos]; simpl;
    try discriminate; try reflexivity.
  intros H. apply andb_true_iff in H as [Hx Hq].
  apply Z.eqb_eq in Hx as ->. f_equal. now apply IH.
Qed.

(** X17.  A position with fewer coordinates than axes is not refused: the
    index takes it as the whole slab it is a prefix of, so [write_block]
    returns and every grid position in that slab then reads the block.
    With one coordinate per axis the slab is the single cell. *)
Theorem write_block_covers_slab self st data sel q pos :
  store_ok self st ->
  normalize_selection sel (_index_matrix_dimension self) = Ok q ->
  b_shape data = raw_chunk_size self ->
  total_chunks (metadata st) + 1 < 2 ^ 64 ->
  in_bounds pos (_index_matrix_dimension self) ->
  is_prefix q pos = true ->
  exists st',
    write_block self data sel st = (Ok tt, st') /\
    get_chunk self pos st' = (Ok data, st') /\
    block_exists self pos st' = (Ok 1, st').
Proof.
  intros Hok Hn Hshape Hfit Hb Hpre.
  pose proof (ok_counter _ _ Hok) as Hc.
  rewrite <- (ok_grid _ _ Hok) in Hn, Hb.
  set (id := total_chunks (metadata st) + 1) in *.
  set (cells := fold_right (fun c m => <[q ++ c := id]> m)
                  (z_cells (indexes st))
                  (grid_cells (drop (length q) (z_shape (indexes st))))).
  exists (mkStore (with_total_chunks (metadata st) id)
            (mkIndexArray (z_shape (indexes st)) cells)
            (<[id := data]> (raw st))).
  assert (Hcell : cells !! pos = Some id).
  { rewrite (is_prefix_split _ _ Hpre). unfold cells.
    apply insert_all_lookup_hit, grid_cells_complete.
    now apply Forall2_drop. }
  split.
  { rewrite write_block_steps, save_raw_fresh;
      [|apply (store_ok_next_fresh _ _ Hok) | assumption].
    unfold _update_index. run_M. unfold setitem, to_uint64. simpl.
    rewrite Hn. fold id.
    destruct (Z.leb_spec 0 id); [|lia].
    destruct (Z.ltb_spec id (2 ^ 64)); [|lia]. reflexivity. }
  split.
  - apply get_chunk_stored with (v := id).
    + exact Hb.
    + unfold cell. simpl. now rewrite Hcell.
    + lia.
    + simpl. now rewrite lookup_insert_eq.
  - rewrite block_exists_cell by exact Hb. unfold cell. simpl.
    rewrite Hcell. simpl.
    now destruct (Z.ltb_spec 0 id); [|lia].
Qed.

Lemma write_block_covers_slab_witness :
  exists st',
    write_block ex_self ex_block1 [-1] (new_dataset ex_self) = (Ok tt, st') /\
    get_chunk ex_self [1; 1] st' = (Ok ex_block1, st') /\
    block_exists ex_self [1; 1] st' = (Ok 1, st').
Proof.
  apply (write_block_covers_slab ex_self (new_dataset ex_self) ex_block1
           [-1] [1] [1; 1]).
  - apply new_dataset_ok.
  - reflexivity.
  - reflexivity.
  - simpl. lia.
  - repeat constructor; simpl; lia.
  - reflexivity.
Defined.

(** ** How a write can fail *)

Lemma normalize_axes_raises sel dims e :
  normalize_axes sel dims = Raise e -> is_index_error e = true.
Proof.
  revert dims. induction sel as [|i sel IH]; intros [|d dims]; simpl;
    try discriminate.
  - now intros [= <-].
  - destruct (normalize_integer_selection i d) as [i'|e'] eqn:Hi.
    + destruct (normalize_axes sel dims) as [r|e'] eqn:Hr; [discriminate|].
      intros [= <-]. eauto.
    + intros [= <-]. unfold normalize_integer_selection in Hi.
      destruct (_ || _) in Hi; [|discriminate]. now injection Hi as <-.
Qed.

Lemma setitem_raises z sel v e :
  setitem z sel v = Raise e -> is_index_error e = true \/ e = OverflowError.
Proof.
  unfold setitem, normalize_selection, to_uint64.
  destruct (_ <? _)%nat; [intros [= <-]; now left|].
  destruct (normalize_axes sel (z_shape z)) as [q|e'] eqn:Hn.
  - destruct (_ && _); [discriminate|]. intros [= <-]. now right.
  - intros [= <-]. left. eapply normalize_axes_raises; eauto.
Qed.

(** X18.  In a store made by [create] and used through [write_block] only,
    the next identifier is never taken: a [write_block] can raise only
    [ValueError] (block of the wrong shape), an [IndexError] (position the
    index refuses) or [OverflowError] (identifier past [uint64]), never
    zarr's [ContainsArrayError]. *)
Theorem write_block_never_collides self ws data pos e :
  fst (write_block self data pos (run_writes self ws (new_dataset self))) =
    Raise e ->
  (e = ValueError \/ is_index_error e = true \/ e = OverflowError) /\
  e <> ContainsArrayError.
Proof.
  set (st := run_writes self ws (new_dataset self)).
  assert (Hok : store_ok self st) by apply run_writes_ok, new_dataset_ok.
  intros Hrun.
  assert (Hcases : e = ValueError \/ is_index_error e = true \/ e = OverflowError).
  { rewrite write_block_steps in Hrun.
    destruct (decide (b_shape data = raw_chunk_size self)) as [Hs|Hs].
    - rewrite save_raw_fresh in Hrun;
        [|apply (store_ok_next_fresh _ _ Hok) | assumption].
      unfold _update_index in Hrun. revert Hrun. run_M.
      destruct (setitem (indexes st) pos _) as [z'|e'] eqn:Hset; simpl;
        [discriminate|].
      intros [= <-]. right. eapply setitem_raises; eauto.
    - rewrite save_raw_wrong_shape in Hrun;
        [|apply (store_ok_next_fresh _ _ Hok) | assumption].
      simpl in Hrun. injection Hrun as <-. now left. }
  split; [exact Hcases|].
  intros ->. destruct Hcases as [H|[H|H]]; discriminate.
Qed.

Lemma write_block_never_collides_witness :
  (BoundsCheckError = ValueError \/
   is_index_error BoundsCheckError = true \/
   BoundsCheckError = OverflowError) /\
  BoundsCheckError <> ContainsArrayError.
Proof.
  apply (write_block_never_collides ex_self [(ex_block1, [0; 0])] ex_block2
           [0; 2] BoundsCheckError).
  reflexivity.
Defined.
